(** * open-lovable: the file-backed tracking store of [lib/simple-database.ts]

    A shallow embedding of [SimpleFileDatabase] and of the helper
    [trackWebsiteClone], and the properties of the written specification
    checked against it.

    Modelling conventions.
    - A JavaScript [number] that is stored in a record (identifiers, durations
      in milliseconds, sizes in bytes, array lengths) is an integer of [Z].
      The engine computes on IEEE doubles, which agree with the integers up
      to 2^53; [getNextId_double] is the allocation of identifiers in that
      arithmetic, and the statements on identifiers say where the two agree.
    - A JavaScript [number] that is the result of a division is a [number]
      below: an exact rational, or one of [NaN], [Infinity], [-Infinity].
    - A JavaScript string is a [string]; its [length] counts characters.
    - The two JSON files are the arrays of records they hold, or are
      unreadable; a file holding other JSON (an object, [null]) is outside
      the model.  What [JSON.stringify] writes for a record and what
      [JSON.parse] reads back are given by [stringify_website],
      [parse_website] and their likes, which are inverse to each other on
      the records of this model.  The constructor, which creates the files
      when they are missing, is not part of the model: a missing file is a
      file that does not parse.
    - A write is either accepted or refused before the file is touched.
    - [fs] calls may throw; the exception is a value of the [result] type and
      [try ... catch] is the combinator [try_catch].
    - An [async] function is its body; [await] is the monadic bind.  A body
      without [await] runs to completion once called.
    - [new Date().toISOString()] is read from the environment: the values
      read are parameters of [trackWebsiteClone]; [new Date(s).getTime()] is
      a parameter of the queries that sort by date. *)

From Stdlib Require Import ZArith List String Ascii Bool Lia Permutation.
From Stdlib Require Import QArith Qcanon Sorted.
Import ListNotations.

Local Open Scope Z_scope.
Local Open Scope string_scope.
Local Open Scope list_scope.

(** ** JavaScript numbers produced by [/] *)

Module JS.

Inductive number : Type :=
| Num (q : Qc)
| NaN
| PosInfinity
| NegInfinity.

Definition of_Z (z : Z) : number := Num (Q2Qc (inject_Z z)).
Definition of_nat (n : nat) : number := of_Z (Z.of_nat n).

(** Sign of a rational as a comparison with zero. *)

Definition sgn (q : Qc) : comparison := (q ?= 0)%Qc.

Definition flip (n : number) : number :=
  match n with
  | PosInfinity => NegInfinity
  | NegInfinity => PosInfinity
  | _ => n
  end.

(** [a / b]. The divisors of this program are array lengths, so a zero
    divisor is the positive zero. *)

Definition div (a b : number) : number :=
  match a, b with
  | NaN, _ | _, NaN => NaN
  | Num x, Num y =>
      match sgn y with
      | Eq => match sgn x with
              | Eq => NaN
              | Gt => PosInfinity
              | Lt => NegInfinity
              end
      | _ => Num (x / y)%Qc
      end
  | Num _, _ => Num 0%Qc
  | _, Num y => match sgn y with Lt => flip a | _ => a end
  | _, _ => NaN
  end.

(** [a * b]. *)

Definition mul (a b : number) : number :=
  match a, b with
  | NaN, _ | _, NaN => NaN
  | Num x, Num y => Num (x * y)%Qc
  | Num x, inf | inf, Num x =>
      match sgn x with
      | Eq => NaN
      | Gt => inf
      | Lt => flip inf
      end
  | PosInfinity, PosInfinity | NegInfinity, NegInfinity => PosInfinity
  | _, _ => NegInfinity
  end.

(** [a - b]. *)

Definition sub (a b : number) : number :=
  match a, b with
  | NaN, _ | _, NaN => NaN
  | Num x, Num y => Num (x - y)%Qc
  | Num _, inf => flip inf
  | inf, Num _ => inf
  | PosInfinity, NegInfinity => PosInfinity
  | NegInfinity, PosInfinity => NegInfinity
  | _, _ => NaN
  end.

(** [a || 0] on a number: the falsy numbers are [0], which [|| 0] leaves
    at [0], and [NaN]. *)

Definition or0 (a : number) : number :=
  match a with
  | NaN => Num 0%Qc
  | _ => a
  end.

(** [v || 0] where [v] is an optional integer field: [undefined] and [0]
    both give [0]. *)

Definition opt_or0 (v : option Z) : Z :=
  match v with
  | Some z => z
  | None => 0
  end.

(** The comparator protocol of [Array.prototype.sort]: a result that is
    negative or zero (or [NaN], which [sort] reads as zero) keeps [a] before
    [b]. *)

Definition keeps_order (c : number) : bool :=
  match c with
  | Num q => match sgn q with Gt => false | _ => true end
  | NaN => true
  | PosInfinity => false
  | NegInfinity => true
  end.

Section Sort.
Context {A : Type} (cmp : A -> A -> number).

Fixpoint insert (x : A) (l : list A) : list A :=
  match l with
  | [] => [x]
  | y :: l' => if keeps_order (cmp x y) then x :: l else y :: insert x l'
  end.

(** [l.sort(cmp)]: the stable sort, as a stable insertion sort.  With a
    comparator that is not an order (dates that do not parse) the engine
    may arrange the elements differently; the result is a permutation of
    [l] in every case, which is all the statements below rely on. *)

Definition sort (l : list A) : list A := fold_right insert [] l.
End Sort.

(** [s.includes(c)] for a one-character needle. *)

Fixpoint includes (s : string) (c : ascii) : bool :=
  match s with
  | EmptyString => false
  | String d s' => if Ascii.eqb d c then true else includes s' c
  end.

(** [s.split(c)] for a one-character separator. *)

Fixpoint split (s : string) (c : ascii) : list string :=
  match s with
  | EmptyString => [EmptyString]
  | String d s' =>
      if Ascii.eqb d c then EmptyString :: split s' c
      else match split s' c with
           | [] => [String d EmptyString]
           | p :: ps => String d p :: ps
           end
  end.

(** [(s.match(/marker/g) || []).length] for a literal [marker]: the
    matches are taken left to right and the search resumes after the end of
    each match.  [skip] is the number of characters still covered by the
    last match. *)

Fixpoint count_matches_from (marker : string) (skip : nat) (s : string) : nat :=
  match s with
  | EmptyString => O
  | String _ s' =>
      match skip with
      | S k => count_matches_from marker k s'
      | O =>
          if String.prefix marker s
          then S (count_matches_from marker (Nat.pred (String.length marker)) s')
          else count_matches_from marker O s'
      end
  end.

Definition count_matches (marker s : string) : nat :=
  count_matches_from marker O s.

End JS.

(** ** Record model *)

Module Website.
Record t : Type := mk {
  id : Z;
  url : string;
  title : string;
  description : option string;
  markdown_content : option string;
  html_content : option string;
  screenshot_url : option string;
  scraped_at : string;
  firecrawl_metadata : option string;
  status : string
}.

(** [Omit<Website, 'id'>] *)
Record fields : Type := mk_fields {
  f_url : string;
  f_title : string;
  f_description : option string;
  f_markdown_content : option string;
  f_html_content : option string;
  f_screenshot_url : option string;
  f_scraped_at : string;
  f_firecrawl_metadata : option string;
  f_status : string
}.

(** [{ ...website, id: i }] *)
Definition with_id (w : fields) (i : Z) : t :=
  mk i (f_url w) (f_title w) (f_description w) (f_markdown_content w)
     (f_html_content w) (f_screenshot_url w) (f_scraped_at w)
     (f_firecrawl_metadata w) (f_status w).
End Website.

Module CloneAttempt.
Record t : Type := mk {
  id : Z;
  website_id : Z;
  model_used : string;
  provider : string;
  style_selected : option string;
  additional_instructions : option string;
  generated_code : option string;
  sandbox_url : option string;
  created_at : string;
  status : string;
  error_message : option string;
  generation_time_ms : option Z;
  code_size_bytes : option Z;
  component_count : option Z
}.

(** [Omit<CloneAttempt, 'id'>] *)
Record fields : Type := mk_fields {
  f_website_id : Z;
  f_model_used : string;
  f_provider : string;
  f_style_selected : option string;
  f_additional_instructions : option string;
  f_generated_code : option string;
  f_sandbox_url : option string;
  f_created_at : string;
  f_status : string;
  f_error_message : option string;
  f_generation_time_ms : option Z;
  f_code_size_bytes : option Z;
  f_component_count : option Z
}.
End CloneAttempt.

Module ModelStats.
Record t : Type := mk {
  total_attempts : nat;
  success_rate : JS.number;
  avg_generation_time_ms : JS.number;
  avg_code_size_bytes : JS.number;
  last_used : option string
}.
End ModelStats.

(** The structural type [{ id: number }] of [getNextId]'s argument. *)

Class HasId (A : Type) : Type := id_of : A -> Z.

#[export] Instance Website_HasId : HasId Website.t := Website.id.
#[export] Instance CloneAttempt_HasId : HasId CloneAttempt.t := CloneAttempt.id.

Definition ids {A} `{HasId A} (items : list A) : list Z := map id_of items.

(** ** The file system and the store monad *)

(** What [fs] throws ([ENOENT], [EACCES], ...) or [JSON.parse] throws on a
    file that does not hold JSON. *)

Inductive exn : Type :=
| ReadError
| WriteError.

Inductive result (A : Type) : Type :=
| Ok (a : A)
| Throw (e : exn).

Arguments Ok {A} a.
Arguments Throw {A} e.

(** A data file: [content] is the array of records the file parses to
    (see [parse_websites] and [parse_attempts] below for the reading), or
    [None] when the file is missing, cannot be read or does not parse.
    [writable] tells whether the file can be opened for writing: on a file
    that cannot ([EACCES], [EPERM], [EROFS], a directory in its place)
    [fs.writeFileSync] throws before it touches the file, so that a refused
    write leaves the file as it was.  Two cases are outside this type: a
    file holding JSON that is not an array of records, and a write that
    fails after the file was opened (the file is overwritten in place, not
    written aside and renamed). *)

Record file (A : Type) : Type := mk_file {
  content : option (list A);
  writable : bool
}.

Arguments mk_file {A} content writable.
Arguments content {A} f.
Arguments writable {A} f.

Record World : Type := mk_world {
  websitesFile : file Website.t;
  attemptsFile : file CloneAttempt.t;
  console : list string
}.

Definition M (A : Type) : Type := World -> result A * World.

Definition ret {A} (a : A) : M A := fun w => (Ok a, w).

Definition bind {A B} (m : M A) (k : A -> M B) : M B :=
  fun w =>
    match m w with
    | (Ok a, w') => k a w'
    | (Throw e, w') => (Throw e, w')
    end.

(** [try { body } catch (error) { handler }] *)

Definition try_catch {A} (body : M A) (handler : exn -> M A) : M A :=
  fun w =>
    match body w with
    | (Ok a, w') => (Ok a, w')
    | (Throw e, w') => handler e w'
    end.

Declare Scope store_scope.
Delimit Scope store_scope with store.
Notation "x <- m ;; k" := (bind m (fun x => k))
  (at level 61, m at next level, right associativity) : store_scope.
Notation "m ;; k" := (bind m (fun _ => k))
  (at level 61, right associativity) : store_scope.
Local Open Scope store_scope.

Definition console_error (msg : string) : M unit :=
  fun w => (Ok tt, mk_world (websitesFile w) (attemptsFile w) (console w ++ [msg])).

Definition read_file {A} (f : file A) : result (list A) :=
  match content f with
  | Some l => Ok l
  | None => Throw ReadError
  end.

Definition write_file {A} (f : file A) (l : list A) : result unit * file A :=
  if writable f then (Ok tt, mk_file (Some l) true) else (Throw WriteError, f).

(** [JSON.parse(fs.readFileSync(this.websitesFile, 'utf8'))] *)

Definition fs_read_websites : M (list Website.t) :=
  fun w => (read_file (websitesFile w), w).

(** [fs.writeFileSync(this.websitesFile, JSON.stringify(websites, null, 2))] *)

Definition fs_write_websites (l : list Website.t) : M unit :=
  fun w =>
    let (r, f) := write_file (websitesFile w) l in
    (r, mk_world f (attemptsFile w) (console w)).

Definition fs_read_attempts : M (list CloneAttempt.t) :=
  fun w => (read_file (attemptsFile w), w).

Definition fs_write_attempts (l : list CloneAttempt.t) : M unit :=
  fun w =>
    let (r, f) := write_file (attemptsFile w) l in
    (r, mk_world (websitesFile w) f (console w)).

(** ** SimpleFileDatabase *)

Definition readWebsites : M (list Website.t) :=
  try_catch fs_read_websites
    (fun _ => console_error "Error reading websites file:" ;; ret []).

Definition writeWebsites (websites : list Website.t) : M unit :=
  try_catch (fs_write_websites websites)
    (fun _ => console_error "Error writing websites file:").

Definition readAttempts : M (list CloneAttempt.t) :=
  try_catch fs_read_attempts
    (fun _ => console_error "Error reading attempts file:" ;; ret []).

Definition writeAttempts (attempts : list CloneAttempt.t) : M unit :=
  try_catch (fs_write_attempts attempts)
    (fun _ => console_error "Error writing attempts file:").

(** [Math.max(...xs)] for a non-empty argument list [x, ...xs]. *)

Definition Math_max (x : Z) (xs : list Z) : Z := fold_left Z.max xs x.

(** [items.length > 0 ? Math.max(...items.map(item => item.id)) + 1 : 1] *)

Definition getNextId {A} `{HasId A} (items : list A) : Z :=
  match map id_of items with
  | [] => 1
  | x :: xs => Math_max x xs + 1
  end.

(** The same expression in the arithmetic of the engine.  Identifiers are
    IEEE doubles: an integer of magnitude up to [MAX_SAFE_INTEGER] is a
    double, and [+ 1] gives the double nearest to the exact sum, the one
    with the even significand when two are equally near. *)

Definition MAX_SAFE_INTEGER : Z := 9007199254740991.

(** The double nearest to the integer [z]: its 53 leading bits, rounded on
    the bits that are dropped. *)

Definition round_to_double (z : Z) : Z :=
  let a := Z.abs z in
  if Z.leb a MAX_SAFE_INTEGER then z
  else
    let dropped := Z.log2 a - 52 in
    let kept := Z.shiftr a dropped in
    let rest := a - Z.shiftl kept dropped in
    let half := Z.shiftl 1 (dropped - 1) in
    let rounded :=
      if Z.ltb rest half then kept
      else if Z.ltb half rest then kept + 1
      else if Z.even kept then kept else kept + 1 in
    Z.sgn z * Z.shiftl rounded dropped.

Definition getNextId_double {A} `{HasId A} (items : list A) : Z :=
  match map id_of items with
  | [] => 1
  | x :: xs => round_to_double (Math_max x xs + 1)
  end.

(** Collections whose identifiers are safe integers. *)

Definition safe_ids {A} `{HasId A} (items : list A) : Prop :=
  Forall (fun i => - MAX_SAFE_INTEGER <= i <= MAX_SAFE_INTEGER) (ids items).

Definition saveWebsite (website : Website.fields) : M Z :=
  websites <- readWebsites ;;
  let newWebsite := Website.with_id website (getNextId websites) in
  let websites := websites ++ [newWebsite] in
  writeWebsites websites ;;
  ret (Website.id newWebsite).

(** [websites.find(w => w.url === url) || null] *)

Definition getWebsiteByUrl (url : string) : M (option Website.t) :=
  websites <- readWebsites ;;
  ret (find (fun w => String.eqb (Website.url w) url) websites).

Definition marker : string := "export default function".

(** [attempt.generated_code?.length || 0] *)

Definition code_size (generated_code : option string) : Z :=
  match generated_code with
  | Some s => Z.of_nat (String.length s)
  | None => 0
  end.

(** [(attempt.generated_code?.match(/export default function/g) || []).length] *)

Definition count_components (generated_code : option string) : Z :=
  match generated_code with
  | Some s => Z.of_nat (JS.count_matches marker s)
  | None => 0
  end.

(** [{ ...attempt, id, code_size_bytes, component_count }] *)

Definition newAttempt (attempt : CloneAttempt.fields) (i : Z) : CloneAttempt.t :=
  let g := CloneAttempt.f_generated_code attempt in
  CloneAttempt.mk i
    (CloneAttempt.f_website_id attempt)
    (CloneAttempt.f_model_used attempt)
    (CloneAttempt.f_provider attempt)
    (CloneAttempt.f_style_selected attempt)
    (CloneAttempt.f_additional_instructions attempt)
    g
    (CloneAttempt.f_sandbox_url attempt)
    (CloneAttempt.f_created_at attempt)
    (CloneAttempt.f_status attempt)
    (CloneAttempt.f_error_message attempt)
    (CloneAttempt.f_generation_time_ms attempt)
    (Some (code_size g))
    (Some (count_components g)).

Definition saveCloneAttempt (attempt : CloneAttempt.fields) : M Z :=
  attempts <- readAttempts ;;
  let a := newAttempt attempt (getNextId attempts) in
  let attempts := attempts ++ [a] in
  writeAttempts attempts ;;
  ret (CloneAttempt.id a).

Definition exportData : M (list Website.t * list CloneAttempt.t) :=
  websites <- readWebsites ;;
  attempts <- readAttempts ;;
  ret (websites, attempts).

(** *** Queries and analytics *)

Definition is_success (a : CloneAttempt.t) : bool :=
  String.eqb (CloneAttempt.status a) "success".

(** [xs.reduce((sum, a) => sum + (f(a) || 0), 0)] *)

Definition reduce_sum {A} (f : A -> option Z) (xs : list A) : Z :=
  fold_left (fun sum a => sum + JS.opt_or0 (f a)) xs 0.

(** [Array.from(new Set(xs))]: the distinct elements in order of first
    occurrence. *)

Definition Set_from (xs : list string) : list string :=
  fold_left
    (fun acc x => if existsb (String.eqb x) acc then acc else acc ++ [x])
    xs [].

Module ProviderRow.
Record t : Type := mk {
  provider : string;
  total_attempts : nat;
  success_rate : JS.number;
  avg_generation_time : JS.number;
  avg_code_size : JS.number
}.
End ProviderRow.

Section Analytics.

(** [new Date(s).getTime()], which is [NaN] on a string that is not a
    date. *)
Variable Date_getTime : string -> JS.number.

(** [(a, b) => new Date(b.created_at).getTime() - new Date(a.created_at).getTime()] *)

Definition newest_first (a b : CloneAttempt.t) : JS.number :=
  JS.sub (Date_getTime (CloneAttempt.created_at b))
         (Date_getTime (CloneAttempt.created_at a)).

Definition getCloneAttemptsByWebsite (websiteId : Z) : M (list CloneAttempt.t) :=
  attempts <- readAttempts ;;
  ret (JS.sort newest_first
         (filter (fun a => Z.eqb (CloneAttempt.website_id a) websiteId) attempts)).

Definition getCloneAttemptsByModel (modelName : string) : M (list CloneAttempt.t) :=
  attempts <- readAttempts ;;
  ret (JS.sort newest_first
         (filter (fun a => String.eqb (CloneAttempt.model_used a) modelName)
                 attempts)).

Definition getModelStats (modelName : string) : M (option ModelStats.t) :=
  attempts <- getCloneAttemptsByModel modelName ;;
  if Nat.eqb (List.length attempts) 0 then ret None
  else
    let successful := filter is_success attempts in
    let avgTime :=
      JS.div (JS.of_Z (reduce_sum CloneAttempt.generation_time_ms attempts))
             (JS.of_nat (List.length attempts)) in
    let avgCodeSize :=
      JS.div (JS.of_Z (reduce_sum CloneAttempt.code_size_bytes successful))
             (JS.of_nat (List.length successful)) in
    ret (Some (ModelStats.mk
                 (List.length attempts)
                 (JS.mul (JS.div (JS.of_nat (List.length successful))
                                 (JS.of_nat (List.length attempts)))
                         (JS.of_Z 100))
                 avgTime
                 avgCodeSize
                 (option_map CloneAttempt.created_at (hd_error attempts)))).

End Analytics.

(** [(a, b) => b.success_rate - a.success_rate] *)

Definition best_rate_first (a b : ProviderRow.t) : JS.number :=
  JS.sub (ProviderRow.success_rate b) (ProviderRow.success_rate a).

Definition provider_row (attempts : list CloneAttempt.t) (provider : string)
  : ProviderRow.t :=
  let providerAttempts :=
    filter (fun a => String.eqb (CloneAttempt.provider a) provider) attempts in
  let successful := filter is_success providerAttempts in
  ProviderRow.mk
    provider
    (List.length providerAttempts)
    (JS.mul (JS.div (JS.of_nat (List.length successful))
                    (JS.of_nat (List.length providerAttempts)))
            (JS.of_Z 100))
    (JS.div (JS.of_Z (reduce_sum CloneAttempt.generation_time_ms providerAttempts))
            (JS.of_nat (List.length providerAttempts)))
    (JS.or0
       (JS.div (JS.of_Z (reduce_sum CloneAttempt.code_size_bytes successful))
               (JS.of_nat (List.length successful)))).

Definition getProviderComparison : M (list ProviderRow.t) :=
  attempts <- readAttempts ;;
  let providers := Set_from (map CloneAttempt.provider attempts) in
  ret (JS.sort best_rate_first (map (provider_row attempts) providers)).

(** ** trackWebsiteClone *)

(** The parameter type ['success' | 'error']. *)

Inductive track_status : Type :=
| StatusSuccess
| StatusError.

Definition status_string (s : track_status) : string :=
  match s with
  | StatusSuccess => "success"
  | StatusError => "error"
  end.

(** [modelUsed.includes('/') ? modelUsed.split('/')[0] : 'unknown'] *)

Definition extract_provider (modelUsed : string) : string :=
  if JS.includes modelUsed "/"%char
  then hd EmptyString (JS.split modelUsed "/"%char)
  else "unknown".

(** [scraped_now] and [created_now] are the two values read from
    [new Date().toISOString()]. *)

Definition trackWebsiteClone (scraped_now created_now : string)
    (url modelUsed generatedCode : string) (generationTimeMs : Z)
    (status : track_status) (errorMessage : option string) : M Z :=
  website <- getWebsiteByUrl url ;;
  website_id <-
    match website with
    | Some w => ret (Website.id w)
    | None =>
        saveWebsite
          (Website.mk_fields url ("Website: " ++ url)%string
             (Some "Scraped for cloning") None None None
             scraped_now None "scraped")
    end ;;
  let provider := extract_provider modelUsed in
  saveCloneAttempt
    (CloneAttempt.mk_fields website_id modelUsed provider None None
       (Some generatedCode) None created_now (status_string status)
       errorMessage (Some generationTimeMs) None None).

(** ** Calls in flight

    The class holds no lock and no queue.  [saveWebsite] and
    [saveCloneAttempt] contain no [await] and use the synchronous [fs]
    calls: once one of them is entered, its read, its push and its write
    happen before any other call of the same process can run.  A set of
    calls issued together is therefore executed one whole body at a time,
    in an order that the caller does not control.  ([trackWebsiteClone]
    does await; its turns are given further down.) *)

Inductive call : Type :=
| CallSaveWebsite (website : Website.fields)
| CallSaveCloneAttempt (attempt : CloneAttempt.fields).

Definition run_call (c : call) (w : World) : World :=
  match c with
  | CallSaveWebsite f => snd (saveWebsite f w)
  | CallSaveCloneAttempt f => snd (saveCloneAttempt f w)
  end.

(** [interleaves pending w w']: every pending call has run, each one picked
    in turn from anywhere in the pool, taking the world from [w] to [w']. *)


(** What a reader sees in each collection. *)

Definition websites_of (w : World) : list Website.t :=
  match fst (readWebsites w) with
  | Ok l => l
  | Throw _ => []
  end.

Definition attempts_of (w : World) : list CloneAttempt.t :=
  match fst (readAttempts w) with
  | Ok l => l
  | Throw _ => []
  end.

(** Calls made one after the other: each runs to completion before the next
    is issued. *)

Definition run_sequence (calls : list call) (w : World) : World :=
  fold_left (fun w c => run_call c w) calls w.

Definition website_inputs (calls : list call) : list Website.fields :=
  flat_map (fun c => match c with
                     | CallSaveWebsite f => [f]
                     | CallSaveCloneAttempt _ => []
                     end) calls.

Definition attempt_inputs (calls : list call) : list CloneAttempt.fields :=
  flat_map (fun c => match c with
                     | CallSaveWebsite _ => []
                     | CallSaveCloneAttempt f => [f]
                     end) calls.

(** [start, start + 1, ..., start + n - 1] *)

Fixpoint Zseq (start : Z) (n : nat) : list Z :=
  match n with
  | O => []
  | S k => start :: Zseq (start + 1) k
  end.

(** The records that a run of creations appends to a collection whose next
    identifier is [next]: the inputs in order, numbered from [next]. *)

Fixpoint number_websites (next : Z) (inputs : list Website.fields) : list Website.t :=
  match inputs with
  | [] => []
  | f :: rest => Website.with_id f next :: number_websites (next + 1) rest
  end.

Fixpoint number_attempts (next : Z) (inputs : list CloneAttempt.fields)
  : list CloneAttempt.t :=
  match inputs with
  | [] => []
  | f :: rest => newAttempt f next :: number_attempts (next + 1) rest
  end.

Definition both_writable (w : World) : Prop :=
  writable (websitesFile w) = true /\ writable (attemptsFile w) = true.

(** ** Notions used in the statements *)

(** The Website that [trackWebsiteClone] creates for a url it does not find. *)

Definition placeholder_website (scraped_now url : string) : Website.fields :=
  Website.mk_fields url ("Website: " ++ url)%string
    (Some "Scraped for cloning") None None None scraped_now None "scraped".

(** The search of [getWebsiteByUrl]. *)

Definition lookup_url (url : string) (websites : list Website.t) : option Website.t :=
  find (fun w => String.eqb (Website.url w) url) websites.

(** The website identifier that [trackWebsiteClone] gives to the attempt:
    the one of the record found for the url, or the one [saveWebsite]
    returns. *)

Definition tracked_website_id (url : string) (w : World) : Z :=
  match lookup_url url (websites_of w) with
  | Some site => Website.id site
  | None => getNextId (websites_of w)
  end.

(** The record that [trackWebsiteClone] hands to the attempts file. *)

Definition tracked_attempt (created_now url modelUsed generatedCode : string)
    (generationTimeMs : Z) (status : track_status)
    (errorMessage : option string) (w : World) : CloneAttempt.t :=
  newAttempt
    (CloneAttempt.mk_fields (tracked_website_id url w) modelUsed
       (extract_provider modelUsed) None None (Some generatedCode) None
       created_now (status_string status) errorMessage
       (Some generationTimeMs) None None)
    (getNextId (attempts_of w)).

(** The arguments of one [trackWebsiteClone] call, with the two clock
    readings it makes. *)

Record track_call : Type := mk_track_call {
  tc_scraped_now : string;
  tc_created_now : string;
  tc_url : string;
  tc_modelUsed : string;
  tc_generatedCode : string;
  tc_generationTimeMs : Z;
  tc_status : track_status;
  tc_errorMessage : option string
}.

Definition run_track (c : track_call) (w : World) : World :=
  snd (trackWebsiteClone (tc_scraped_now c) (tc_created_now c) (tc_url c)
         (tc_modelUsed c) (tc_generatedCode c) (tc_generationTimeMs c)
         (tc_status c) (tc_errorMessage c) w).

(** [trackWebsiteClone] calls made one after the other. *)

Definition run_tracks (calls : list track_call) (w : World) : World :=
  fold_left (fun w c => run_track c w) calls w.

Definition urls (websites : list Website.t) : list string :=
  map Website.url websites.

(** ** What the data files hold

    [JSON.stringify(records, null, 2)] writes an array of objects and
    [JSON.parse] reads it back.  Both are taken at the level of the JSON
    tree; the text of the tree (escapes, indentation) is the engine's.  A
    member whose value is [undefined] is not written, and a member that is
    not there reads as [undefined]. *)

Module JSON.

Unset Elimination Schemes.
Inductive value : Type :=
| Null
| Number (z : Z)
| Text (s : string)
| Raw (text : string)
| Array (items : list value)
| Object (members : list (string * value)).
Set Elimination Schemes.

(** [Raw text] is a subtree kept as its JSON text: the [firecrawl_metadata]
    of a Website. *)

(** [o[key]] *)
Definition member (key : string) (o : value) : option value :=
  match o with
  | Object members =>
      option_map snd (find (fun m => String.eqb (fst m) key) members)
  | _ => None
  end.


(** Typed readings of a member; the outer [None] is a member of another
    type. *)

Definition text (key : string) (o : value) : option string :=
  match member key o with
  | Some (Text s) => Some s
  | _ => None
  end.

Definition number (key : string) (o : value) : option Z :=
  match member key o with
  | Some (Number z) => Some z
  | _ => None
  end.




Fixpoint all {A} (read : value -> option A) (items : list value)
  : option (list A) :=
  match items with
  | [] => Some []
  | v :: rest =>
      match read v, all read rest with
      | Some a, Some l => Some (a :: l)
      | _, _ => None
      end
  end.

End JSON.

(** The object that [{ ...website, id }] is written as. *)


(** The members of a parsed object, read as a [Website]. *)


(** The object that [{ ...attempt, id, code_size_bytes, component_count }]
    is written as. *)



(** [JSON.stringify(websites, null, 2)] and [JSON.parse(data)], and the
    same for the attempts. *)





(** A stored record holds the caller's value in every field that the
    caller supplies. *)


(** For an attempt, the size and the component count are the ones of the
    code. *)


(** ** The aggregates in the words of the specification *)

Module Spec.

(** The attempts recorded for a model, in the order of the collection. *)
Definition attempts_for (model : string) (all : list CloneAttempt.t)
  : list CloneAttempt.t :=
  filter (fun a => String.eqb (CloneAttempt.model_used a) model) all.

Definition attempts_by (provider : string) (all : list CloneAttempt.t)
  : list CloneAttempt.t :=
  filter (fun a => String.eqb (CloneAttempt.provider a) provider) all.

Definition successful (l : list CloneAttempt.t) : list CloneAttempt.t :=
  filter (fun a => String.eqb (CloneAttempt.status a) "success") l.

(** A missing measurement counts as zero. *)
Definition duration (a : CloneAttempt.t) : Z :=
  match CloneAttempt.generation_time_ms a with Some d => d | None => 0 end.

Definition size (a : CloneAttempt.t) : Z :=
  match CloneAttempt.code_size_bytes a with Some d => d | None => 0 end.

Definition total (xs : list Z) : Z := fold_right Z.add 0 xs.

(** Arithmetic mean: the total divided by the count. *)
Definition mean (xs : list Z) : JS.number :=
  JS.div (JS.of_Z (total xs)) (JS.of_nat (List.length xs)).

(** [part] out of [whole], as a percentage. *)
Definition percentage (part whole : nat) : JS.number :=
  JS.mul (JS.div (JS.of_nat part) (JS.of_nat whole)) (JS.of_Z 100).

(** The part of [model] that precedes its first ['/'], when there is one. *)
Definition prefix_before_separator (model p : string) : Prop :=
  exists rest,
    model = (p ++ String "/"%char rest)%string /\
    ~ In "/"%char (list_ascii_of_string p).

Definition has_separator (model : string) : Prop :=
  In "/"%char (list_ascii_of_string model).

End Spec.

(** The three attempts of the example of the specification. *)

Definition example_measurements : list (option Z * string) :=
  [(Some 3000, "success"); (Some 4000, "success"); (Some 5000, "error")].

Definition measurement (a : CloneAttempt.t) : option Z * string :=
  (CloneAttempt.generation_time_ms a, CloneAttempt.status a).

(** ** Sample inputs *)

Definition empty_world : World :=
  mk_world (mk_file (Some []) true) (mk_file (Some []) true) [].

Definition read_only_world : World :=
  mk_world (mk_file (Some []) false) (mk_file (Some []) false) [].

Definition site (url : string) : Website.fields :=
  Website.mk_fields url "Example" None None None None
    "2025-01-01T00:00:00.000Z" None "scraped".

Definition attempt (website_id : Z) (model : string) (status : string)
    (created_at : string) (time : Z) : CloneAttempt.fields :=
  CloneAttempt.mk_fields website_id model (extract_provider model) None None
    (Some "export default function App() {}") None created_at status None
    (Some time) None None.

Definition sample_clock (s : string) : JS.number :=
  JS.of_nat (String.length s).

Definition stats_world : World :=
  run_sequence
    [CallSaveCloneAttempt (attempt 1 "ollama/llama3.2:7b" "success" "2025-01-01" 3000);
     CallSaveCloneAttempt (attempt 2 "vllm/CodeLlama" "error" "2025-01-02" 900);
     CallSaveCloneAttempt (attempt 1 "ollama/llama3.2:7b" "success" "2025-01-03" 4000);
     CallSaveCloneAttempt (attempt 1 "ollama/llama3.2:7b" "error" "2025-01-04" 5000)]
    empty_world.

(** ** The rest of the store: listing, summary, sample data

    [console.log] and [console.error] write to the same console. *)

Definition console_log (msg : string) : M unit :=
  fun w => (Ok tt, mk_world (websitesFile w) (attemptsFile w) (console w ++ [msg])).

(** [v || d] on an optional string: [undefined] and the empty string are
    the falsy values. *)

Definition str_or (v : option string) (d : string) : string :=
  match v with
  | Some EmptyString => d
  | Some s => s
  | None => d
  end.

Module ModelRow.
Record t : Type := mk {
  model_name : string;
  provider : string;
  total_attempts : nat;
  success_rate : JS.number;
  avg_generation_time : JS.number;
  avg_code_size : JS.number;
  last_used : option string
}.
End ModelRow.

(** [(a, b) => a.avg_generation_time - b.avg_generation_time] *)

Definition fastest_first (a b : ModelRow.t) : JS.number :=
  JS.sub (ModelRow.avg_generation_time a) (ModelRow.avg_generation_time b).

Section Listing.

Variable Date_getTime : string -> JS.number.

(** [(a, b) => new Date(b.scraped_at).getTime() - new Date(a.scraped_at).getTime()] *)

Definition newest_scraped_first (a b : Website.t) : JS.number :=
  JS.sub (Date_getTime (Website.scraped_at b))
         (Date_getTime (Website.scraped_at a)).

Definition getAllWebsites : M (list Website.t) :=
  websites <- readWebsites ;;
  ret (JS.sort newest_scraped_first websites).

(** One entry of [getModelPerformanceSummary].  The fields of the object
    literal are evaluated in order: [modelAttempts[0]] is read, and
    [successful] is filtered, before [modelAttempts.sort(...)] reorders the
    array for [last_used]. *)

Definition model_row (attempts : list CloneAttempt.t) (model : string)
  : ModelRow.t :=
  let modelAttempts :=
    filter (fun a => String.eqb (CloneAttempt.model_used a) model) attempts in
  let successful := filter is_success modelAttempts in
  ModelRow.mk
    model
    (str_or (option_map CloneAttempt.provider (hd_error modelAttempts)) "unknown")
    (List.length modelAttempts)
    (JS.mul (JS.div (JS.of_nat (List.length successful))
                    (JS.of_nat (List.length modelAttempts)))
            (JS.of_Z 100))
    (JS.div (JS.of_Z (reduce_sum CloneAttempt.generation_time_ms modelAttempts))
            (JS.of_nat (List.length modelAttempts)))
    (JS.or0
       (JS.div (JS.of_Z (reduce_sum CloneAttempt.code_size_bytes successful))
               (JS.of_nat (List.length successful))))
    (option_map CloneAttempt.created_at
       (hd_error (JS.sort (newest_first Date_getTime) modelAttempts))).

Definition getModelPerformanceSummary : M (list ModelRow.t) :=
  attempts <- readAttempts ;;
  let models := Set_from (map CloneAttempt.model_used attempts) in
  ret (JS.sort fastest_first (map (model_row attempts) models)).

End Listing.

(** *** importSampleData *)

Definition dq : string := String (Ascii.ascii_of_nat 34) EmptyString.
Definition nl : string := String (Ascii.ascii_of_nat 10) EmptyString.

Definition stripe_markdown : string :=
  ("# Stripe" ++ nl ++ nl ++ "The new standard in online payments" ++ nl ++
   nl ++
   "Stripe is a suite of payment APIs that powers commerce for online businesses of all sizes.")%string.

Definition stripe_html : string :=
  ("<html><head><title>Stripe</title></head><body><h1>Stripe</h1><p>The new standard in online payments</p></body></html>")%string.

Definition vercel_markdown : string :=
  ("# Vercel" ++ nl ++ nl ++ "Develop. Preview. Ship." ++ nl ++ nl ++
   "Vercel is the platform for frontend developers.")%string.

Definition vercel_html : string :=
  ("<html><head><title>Vercel</title></head><body><nav><h1>Vercel</h1></nav><main><h2>Develop. Preview. Ship.</h2></main></body></html>")%string.

Definition stripe_code : string :=
  ("import React from " ++ dq ++ "react" ++ dq ++ ";" ++ nl ++ nl ++
   "export default function App() {" ++ nl ++ "  return (" ++ nl ++
   "    <div className=" ++ dq ++
   "min-h-screen bg-gradient-to-br from-blue-50 to-purple-50" ++ dq ++
   ">" ++ nl ++ "      <div className=" ++ dq ++
   "backdrop-blur-sm bg-white/30 border border-white/20 rounded-2xl p-8 m-8" ++
   dq ++ ">" ++ nl ++ "        <h1 className=" ++ dq ++
   "text-4xl font-bold text-gray-900 mb-4" ++ dq ++ ">Stripe</h1>" ++ nl ++
   "        <p className=" ++ dq ++ "text-xl text-gray-700" ++ dq ++
   ">The new standard in online payments</p>" ++ nl ++
   "        <button className=" ++ dq ++
   "mt-4 px-6 py-3 bg-blue-600 text-white rounded-lg" ++ dq ++
   ">Get Started</button>" ++ nl ++ "      </div>" ++ nl ++ "    </div>" ++
   nl ++ "  );" ++ nl ++ "}")%string.

Definition vercel_code : string :=
  ("import React from " ++ dq ++ "react" ++ dq ++ ";" ++ nl ++ nl ++
   "export default function App() {" ++ nl ++ "  return (" ++ nl ++
   "    <div className=" ++ dq ++ "min-h-screen bg-white" ++ dq ++ ">" ++
   nl ++ "      <header className=" ++ dq ++
   "border-b border-gray-200 px-8 py-4" ++ dq ++ ">" ++ nl ++
   "        <h1 className=" ++ dq ++ "text-2xl font-semibold" ++ dq ++
   ">Vercel</h1>" ++ nl ++ "      </header>" ++ nl ++
   "      <main className=" ++ dq ++ "px-8 py-16" ++ dq ++ ">" ++ nl ++
   "        <h2 className=" ++ dq ++ "text-5xl font-bold mb-4" ++ dq ++
   ">Develop. Preview. Ship.</h2>" ++ nl ++ "        <p className=" ++ dq ++
   "text-xl text-gray-600" ++ dq ++ ">Frontend cloud platform</p>" ++ nl ++
   "      </main>" ++ nl ++ "    </div>" ++ nl ++ "  );" ++ nl ++ "}")%string.

(** The [firecrawl_metadata] objects, as the JSON text of the object. *)

Definition stripe_metadata : string :=
  ("{" ++ dq ++ "title" ++ dq ++ ":" ++ dq ++ "Stripe" ++ dq ++ "," ++
   dq ++ "description" ++ dq ++ ":" ++ dq ++ "Online payments" ++ dq ++ "," ++
   dq ++ "industry" ++ dq ++ ":" ++ dq ++ "fintech" ++ dq ++ "}")%string.

Definition vercel_metadata : string :=
  ("{" ++ dq ++ "title" ++ dq ++ ":" ++ dq ++ "Vercel" ++ dq ++ "," ++
   dq ++ "description" ++ dq ++ ":" ++ dq ++ "Frontend cloud" ++ dq ++ "," ++
   dq ++ "industry" ++ dq ++ ":" ++ dq ++ "developer-tools" ++ dq ++ "}")%string.

(** [now1] ... [now4] are the four values read, in this order, from
    [new Date().toISOString()]. *)

Definition sampleWebsites (now1 now2 : string) : list Website.t :=
  [ Website.mk 1 "https://stripe.com" "Stripe - Online Payment Processing"
      (Some "Accept payments online") (Some stripe_markdown) (Some stripe_html)
      (Some "https://images.unsplash.com/stripe-homepage.jpg") now1
      (Some stripe_metadata) "scraped";
    Website.mk 2 "https://vercel.com" "Vercel - Develop. Preview. Ship."
      (Some "Frontend cloud platform") (Some vercel_markdown) (Some vercel_html)
      (Some "https://images.unsplash.com/vercel-homepage.jpg") now2
      (Some vercel_metadata) "scraped" ].

Definition sampleAttempts (now3 now4 : string) : list CloneAttempt.t :=
  [ CloneAttempt.mk 1 1 "ollama/llama3.2:7b" "ollama" (Some "glassmorphism")
      (Some "Make it look modern with payment focused design")
      (Some stripe_code) (Some "http://localhost:3000/stripe-clone-1") now3
      "success" None (Some 3500) (Some 0) (Some 0);
    CloneAttempt.mk 2 2 "vllm/meta-llama/CodeLlama-7b-Instruct-hf" "vllm"
      (Some "minimalist") None
      (Some vercel_code) (Some "http://localhost:3000/vercel-clone-1") now4
      "success" None (Some 2800) (Some 0) (Some 0) ].

Definition importSampleData (now1 now2 now3 now4 : string) : M unit :=
  writeWebsites (sampleWebsites now1 now2) ;;
  writeAttempts (sampleAttempts now3 now4) ;;
  console_log "Sample data imported successfully".

(** ** The analytics route, [app/api/local-models-analytics/route.ts]

    A response is its status code and its JSON body.  The request is what
    the handler reads from it: for [GET] the value of
    [searchParams.get('action')], for [POST] the outcome of
    [request.json()], which throws on a body that is not JSON and otherwise
    gives the [model_name] member (absent, or a string; other JSON values
    are outside this model). *)

Module Route.

Inductive payload : Type :=
| Message (message : string)
| Stats (models : list ModelRow.t) (providers : list ProviderRow.t)
        (websites : list Website.t) (totalWebsites : nat)
| Export (websites : list Website.t) (attempts : list CloneAttempt.t)
| Data (data : option ModelStats.t)
| Failure (error : string).

(** [success] is the field of that name in the body. *)

Definition success (p : payload) : bool :=
  match p with
  | Failure _ => false
  | _ => true
  end.

Record response : Type := mk_response {
  body : payload;
  status : Z
}.

(** [NextResponse.json(body)] answers 200. *)

Definition json (p : payload) : response := mk_response p 200.

Definition invalid_action : string :=
  "Invalid action. Use ?action=init, ?action=stats, or ?action=export".

Definition action_is (action : option string) (name : string) : bool :=
  match action with
  | Some a => String.eqb a name
  | None => false
  end.

Section Handlers.

Variable Date_getTime : string -> JS.number.

(** [(error as Error).message] *)
Variable Error_message : exn -> string.

(** [catch (error) { console.error(...); return ... status: 500 }] *)

Definition internal_error (e : exn) : M response :=
  console_error "[local-models-analytics] Error:" ;;
  ret (mk_response (Failure (Error_message e)) 500).

Definition GET (now1 now2 now3 now4 : string) (action : option string)
  : M response :=
  try_catch
    (if action_is action "init" then
       importSampleData now1 now2 now3 now4 ;;
       ret (json (Message "Sample data initialized"))
     else if action_is action "stats" then
       modelStats <- getModelPerformanceSummary Date_getTime ;;
       providerStats <- getProviderComparison ;;
       websites <- getAllWebsites Date_getTime ;;
       ret (json (Stats modelStats providerStats (firstn 10 websites)
                    (List.length websites)))
     else if action_is action "export" then
       exported <- exportData ;;
       ret (json (Export (fst exported) (snd exported)))
     else
       ret (mk_response (Failure invalid_action) 400))
    internal_error.

(** [request_json] is the outcome of [await request.json()] followed by the
    destructuring [{ model_name }]. *)

Definition POST (request_json : result (option string)) : M response :=
  try_catch
    (model_name <- (fun w => (request_json, w)) ;;
     match model_name with
     | None | Some EmptyString =>
         ret (mk_response (Failure "model_name is required") 400)
     | Some name =>
         stats <- getModelStats Date_getTime name ;;
         ret (json (Data stats))
     end)
    internal_error.

End Handlers.

End Route.

(** ** Notions used in the further statements *)

(** [x] does not come after [y] when the greater key comes first. *)

Definition key_not_below {A : Type} (key : A -> Qc) (x y : A) : Prop :=
  (key y <= key x)%Qc.

(** The value of a number that is neither [NaN] nor infinite. *)

Definition number_value (n : JS.number) : Qc :=
  match n with
  | JS.Num q => q
  | _ => 0%Qc
  end.

Definition is_finite (n : JS.number) : Prop := n = JS.Num (number_value n).

(** [x] does not come after [y] when the smaller key comes first. *)

Definition key_not_above {A : Type} (key : A -> Qc) (x y : A) : Prop :=
  (key x <= key y)%Qc.

Definition row_rate (r : ProviderRow.t) : Qc :=
  number_value (ProviderRow.success_rate r).

Definition row_time (r : ModelRow.t) : Qc :=
  number_value (ModelRow.avg_generation_time r).

(** The time of a record, for a clock [getTime] that parses its date. *)

Definition created_time (getTime : string -> JS.number) (a : CloneAttempt.t) : Qc :=
  number_value (getTime (CloneAttempt.created_at a)).

Definition scraped_time (getTime : string -> JS.number) (s : Website.t) : Qc :=
  number_value (getTime (Website.scraped_at s)).

Definition created_parses (getTime : string -> JS.number) (a : CloneAttempt.t) : Prop :=
  is_finite (getTime (CloneAttempt.created_at a)).

Definition scraped_parses (getTime : string -> JS.number) (s : Website.t) : Prop :=
  is_finite (getTime (Website.scraped_at s)).

(** The sample attempts: what they store and what their code would give. *)

Definition stores_zero_for_derived_fields (a : CloneAttempt.t) : Prop :=
  CloneAttempt.code_size_bytes a = Some 0 /\
  CloneAttempt.component_count a = Some 0 /\
  0 < code_size (CloneAttempt.generated_code a) /\
  count_components (CloneAttempt.generated_code a) = 1.

(** Every stored attempt refers to a stored Website. *)

Definition references_valid (w : World) : Prop :=
  Forall (fun a => In (CloneAttempt.website_id a) (ids (websites_of w)))
         (attempts_of w).

(** An operation that only reads: it returns a value and leaves both data
    files as they are. *)
Definition reads_only {A} (m : M A) : Prop :=
  forall w,
    (exists v, fst (m w) = Ok v) /\
    websitesFile (snd (m w)) = websitesFile w /\
    attemptsFile (snd (m w)) = attemptsFile w.

(** [a] with the size and the component count that a caller supplies. *)
Definition with_supplied (a : CloneAttempt.fields) (size count : option Z)
  : CloneAttempt.fields :=
  CloneAttempt.mk_fields
    (CloneAttempt.f_website_id a) (CloneAttempt.f_model_used a)
    (CloneAttempt.f_provider a) (CloneAttempt.f_style_selected a)
    (CloneAttempt.f_additional_instructions a)
    (CloneAttempt.f_generated_code a) (CloneAttempt.f_sandbox_url a)
    (CloneAttempt.f_created_at a) (CloneAttempt.f_status a)
    (CloneAttempt.f_error_message a) (CloneAttempt.f_generation_time_ms a)
    size count.

(** [m] occurs in [s]. *)
Definition occurs_in (m s : string) : Prop :=
  exists before after, s = (before ++ m ++ after)%string.

(** The actions that [GET] knows. *)

Definition known_action (action : option string) : Prop :=
  action = Some "init" \/ action = Some "stats" \/ action = Some "export".

(** *** The turns of trackWebsiteClone

    [trackWebsiteClone] awaits three times.  The store operation of an
    [await] runs as soon as it is called; the function then gives way until
    the result is delivered, and other calls can take turns meanwhile.  A
    turn of a call is the code it runs between two such points. *)




(** The turns of one call taken in a row, with no other call in between. *)


(** Two calls in flight.  A schedule tells, turn after turn, which call
    runs its next turn: [false] the first call, [true] the second. *)


(** The number of turns that a schedule gives to a call. *)


(** The two calls overlap: each has looked the url up before the other
    takes its second turn. *)


(** The attempt that a call hands to [saveCloneAttempt] for a Website
    identifier. *)


(** ** Basic facts about the store operations *)

Ltac world w :=
  let wl := fresh "wl" in
  let al := fresh "al" in
  let con := fresh "con" in
  destruct w as [[[wl|] [|]] [[al|] [|]] con].

Lemma saveWebsite_returns (f : Website.fields) (w : World) :
  fst (saveWebsite f w) = Ok (getNextId (websites_of w)).
Proof. world w; reflexivity. Qed.

Lemma saveWebsite_websites (f : Website.fields) (w : World) :
  websites_of (snd (saveWebsite f w)) =
  if writable (websitesFile w)
  then websites_of w ++ [Website.with_id f (getNextId (websites_of w))]
  else websites_of w.
Proof. world w; reflexivity. Qed.

Lemma saveWebsite_attempts (f : Website.fields) (w : World) :
  attempts_of (snd (saveWebsite f w)) = attempts_of w.
Proof. world w; reflexivity. Qed.

Lemma saveWebsite_writable (f : Website.fields) (w : World) :
  writable (websitesFile (snd (saveWebsite f w))) = writable (websitesFile w) /\
  writable (attemptsFile (snd (saveWebsite f w))) = writable (attemptsFile w).
Proof. world w; split; reflexivity. Qed.

Lemma saveCloneAttempt_returns (a : CloneAttempt.fields) (w : World) :
  fst (saveCloneAttempt a w) = Ok (getNextId (attempts_of w)).
Proof. world w; reflexivity. Qed.

Lemma saveCloneAttempt_attempts (a : CloneAttempt.fields) (w : World) :
  attempts_of (snd (saveCloneAttempt a w)) =
  if writable (attemptsFile w)
  then attempts_of w ++ [newAttempt a (getNextId (attempts_of w))]
  else attempts_of w.
Proof. world w; reflexivity. Qed.

Lemma saveCloneAttempt_websites (a : CloneAttempt.fields) (w : World) :
  websites_of (snd (saveCloneAttempt a w)) = websites_of w.
Proof. world w; reflexivity. Qed.

Lemma saveCloneAttempt_writable (a : CloneAttempt.fields) (w : World) :
  writable (websitesFile (snd (saveCloneAttempt a w))) = writable (websitesFile w) /\
  writable (attemptsFile (snd (saveCloneAttempt a w))) = writable (attemptsFile w).
Proof. world w; split; reflexivity. Qed.

(** *** [Math.max] and [getNextId] *)

Lemma Math_max_ge (xs : list Z) : forall x,
  x <= Math_max x xs /\ Forall (fun y => y <= Math_max x xs) xs.
Proof.
  unfold Math_max.
  induction xs as [|y ys IH]; intro x; cbn.
  - split; [lia | constructor].
  - destruct (IH (Z.max x y)) as [Hx Hys].
    split; [lia |].
    constructor; [lia | exact Hys].
Qed.

Lemma Math_max_In (xs : list Z) : forall x, In (Math_max x xs) (x :: xs).
Proof.
  unfold Math_max.
  induction xs as [|y ys IH]; intro x; cbn.
  - now left.
  - destruct (IH (Z.max x y)) as [H | H].
    + rewrite <- H.
      destruct (Z.max_spec x y) as [[_ E] | [_ E]]; rewrite E; auto.
    + auto.
Qed.

Lemma Math_max_snoc (xs : list Z) (x y : Z) :
  Math_max x (xs ++ [y]) = Z.max (Math_max x xs) y.
Proof. unfold Math_max. now rewrite fold_left_app. Qed.

Lemma round_to_double_safe (z : Z) :
  - MAX_SAFE_INTEGER <= z <= MAX_SAFE_INTEGER + 1 -> round_to_double z = z.
Proof.
  intro Hz. unfold round_to_double.
  destruct (Z.leb (Z.abs z) MAX_SAFE_INTEGER) eqn:E; [reflexivity |].
  apply Z.leb_gt in E.
  assert (z = MAX_SAFE_INTEGER + 1) as -> by lia.
  reflexivity.
Qed.

Lemma Zseq_In (n : nat) : forall start i,
  In i (Zseq start n) <-> start <= i < start + Z.of_nat n.
Proof.
  induction n as [|n IH]; intros start i; cbn [Zseq In].
  - split; [tauto | lia].
  - rewrite IH. lia.
Qed.

Section NextId.
Context {A : Type} `{HasId A}.

Lemma getNextId_nil : getNextId (@nil A) = 1.
Proof. reflexivity. Qed.

Lemma getNextId_above (items : list A) :
  Forall (fun i => i < getNextId items) (ids items).
Proof.
  unfold getNextId, ids.
  destruct (map id_of items) as [|x xs]; [constructor |].
  destruct (Math_max_ge xs x) as [Hx Hxs].
  constructor; [lia |].
  eapply Forall_impl; [| exact Hxs].
  cbn; intros; lia.
Qed.

Lemma getNextId_pred_In (items : list A) :
  items <> [] -> In (getNextId items - 1) (ids items).
Proof.
  intro Hne. unfold getNextId, ids.
  destruct items as [|a items]; [congruence |].
  cbn [map].
  replace (Math_max (id_of a) (map id_of items) + 1 - 1)
    with (Math_max (id_of a) (map id_of items)) by lia.
  apply Math_max_In.
Qed.

Lemma getNextId_snoc (items : list A) (x : A) :
  id_of x = getNextId items ->
  getNextId (items ++ [x]) = getNextId items + 1.
Proof.
  intro Hx. unfold getNextId in *.
  rewrite map_app. cbn [map].
  destruct (map id_of items) as [|y ys]; cbn [app].
  - rewrite Hx. reflexivity.
  - rewrite Math_max_snoc. rewrite Hx. lia.
Qed.

Lemma getNextId_bounds (items : list A) :
  safe_ids items ->
  - MAX_SAFE_INTEGER < getNextId items <= MAX_SAFE_INTEGER + 1.
Proof.
  intro Hsafe. unfold safe_ids in Hsafe. rewrite Forall_forall in Hsafe.
  destruct items as [|a items].
  - rewrite getNextId_nil. unfold MAX_SAFE_INTEGER. lia.
  - assert (Hne : a :: items <> []) by discriminate.
    pose proof (Hsafe _ (getNextId_pred_In (a :: items) Hne)). lia.
Qed.

Lemma getNextId_double_safe (items : list A) :
  safe_ids items -> getNextId_double items = getNextId items.
Proof.
  intro Hsafe. pose proof (getNextId_bounds items Hsafe) as Hb.
  unfold getNextId_double, getNextId in *.
  destruct (map id_of items) as [|x xs]; [reflexivity |].
  apply round_to_double_safe. lia.
Qed.

Lemma safe_ids_grow (items : list A) (n : nat) :
  safe_ids items ->
  getNextId items + Z.of_nat n <= MAX_SAFE_INTEGER + 1 ->
  Forall (fun i => - MAX_SAFE_INTEGER <= i <= MAX_SAFE_INTEGER)
         (ids items ++ Zseq (getNextId items) n).
Proof.
  intros Hsafe Hroom. pose proof (getNextId_bounds items Hsafe) as Hb.
  apply Forall_app. split; [exact Hsafe |].
  apply Forall_forall. intros i Hi. apply Zseq_In in Hi. lia.
Qed.

End NextId.

(** *** Runs of creations *)

Lemma Zseq_NoDup (n : nat) : forall start, NoDup (Zseq start n).
Proof.
  induction n as [|n IH]; intro start; cbn [Zseq]; constructor.
  - rewrite Zseq_In. lia.
  - apply IH.
Qed.


Lemma ids_number_websites (inputs : list Website.fields) : forall next,
  ids (number_websites next inputs) = Zseq next (List.length inputs).
Proof.
  induction inputs as [|f rest IH]; intro next; cbn; [| rewrite <- IH]; reflexivity.
Qed.

Lemma ids_number_attempts (inputs : list CloneAttempt.fields) : forall next,
  ids (number_attempts next inputs) = Zseq next (List.length inputs).
Proof.
  induction inputs as [|f rest IH]; intro next; cbn; [| rewrite <- IH]; reflexivity.
Qed.



Lemma run_call_writable_each (c : call) (w : World) :
  writable (websitesFile (run_call c w)) = writable (websitesFile w) /\
  writable (attemptsFile (run_call c w)) = writable (attemptsFile w).
Proof.
  destruct c as [f | f]; cbn [run_call].
  - apply saveWebsite_writable.
  - apply saveCloneAttempt_writable.
Qed.

(** Each collection on its own: a file that accepts writes receives the
    records in order; a file that refuses them keeps what it held. *)

Lemma run_sequence_websites (calls : list call) : forall w,
  websites_of (run_sequence calls w) =
    if writable (websitesFile w)
    then websites_of w ++
         number_websites (getNextId (websites_of w)) (website_inputs calls)
    else websites_of w.
Proof.
  induction calls as [|c calls IH]; intro w.
  - cbn. destruct (writable (websitesFile w)); now rewrite ?app_nil_r.
  - change (run_sequence (c :: calls) w) with (run_sequence calls (run_call c w)).
    rewrite IH. clear IH.
    destruct (run_call_writable_each c w) as [-> _].
    destruct c as [f | f]; cbn [run_call website_inputs flat_map app].
    + rewrite saveWebsite_websites.
      destruct (writable (websitesFile w)); [| reflexivity].
      rewrite getNextId_snoc by reflexivity.
      cbn [number_websites]. now rewrite <- app_assoc.
    + now rewrite saveCloneAttempt_websites.
Qed.

Lemma run_sequence_attempts (calls : list call) : forall w,
  attempts_of (run_sequence calls w) =
    if writable (attemptsFile w)
    then attempts_of w ++
         number_attempts (getNextId (attempts_of w)) (attempt_inputs calls)
    else attempts_of w.
Proof.
  induction calls as [|c calls IH]; intro w.
  - cbn. destruct (writable (attemptsFile w)); now rewrite ?app_nil_r.
  - change (run_sequence (c :: calls) w) with (run_sequence calls (run_call c w)).
    rewrite IH. clear IH.
    destruct (run_call_writable_each c w) as [_ ->].
    destruct c as [f | f]; cbn [run_call attempt_inputs flat_map app].
    + now rewrite saveWebsite_attempts.
    + rewrite saveCloneAttempt_attempts.
      destruct (writable (attemptsFile w)); [| reflexivity].
      rewrite getNextId_snoc by reflexivity.
      cbn [number_attempts]. now rewrite <- app_assoc.
Qed.






(** *** Sorting and summing *)

Lemma insert_perm {A} (cmp : A -> A -> JS.number) (x : A) (l : list A) :
  Permutation (JS.insert cmp x l) (x :: l).
Proof.
  induction l as [|y l IH]; cbn.
  - reflexivity.
  - destruct (JS.keeps_order (cmp x y)).
    + reflexivity.
    + rewrite IH. constructor.
Qed.

Lemma sort_perm {A} (cmp : A -> A -> JS.number) (l : list A) :
  Permutation (JS.sort cmp l) l.
Proof.
  unfold JS.sort.
  induction l as [|x l IH]; cbn.
  - constructor.
  - rewrite insert_perm. now constructor.
Qed.

Lemma filter_perm {A} (p : A -> bool) (l l' : list A) :
  Permutation l l' -> Permutation (filter p l) (filter p l').
Proof.
  induction 1 as [| x l l' _ IH | x y l | l l' l'' _ IH1 _ IH2]; cbn.
  - constructor.
  - destruct (p x); [constructor |]; exact IH.
  - destruct (p x), (p y); try reflexivity. constructor.
  - etransitivity; eassumption.
Qed.

Lemma fold_sum_shift {A} (g : A -> Z) (xs : list A) : forall acc,
  fold_left (fun sum a => sum + g a) xs acc = acc + Spec.total (map g xs).
Proof.
  unfold Spec.total.
  induction xs as [|x xs IH]; intro acc; cbn [fold_left fold_right map].
  - lia.
  - rewrite IH. lia.
Qed.

Lemma reduce_sum_total {A} (f : A -> option Z) (xs : list A) :
  reduce_sum f xs = Spec.total (map (fun a => JS.opt_or0 (f a)) xs).
Proof. unfold reduce_sum. now rewrite fold_sum_shift. Qed.

Lemma total_perm (xs ys : list Z) :
  Permutation xs ys -> Spec.total xs = Spec.total ys.
Proof.
  unfold Spec.total.
  induction 1; cbn [fold_right] in *; lia.
Qed.

Lemma reduce_sum_perm {A} (f : A -> option Z) (xs ys : list A) :
  Permutation xs ys -> reduce_sum f xs = reduce_sum f ys.
Proof.
  intro Hp. rewrite !reduce_sum_total.
  apply total_perm, Permutation_map, Hp.
Qed.

Lemma Set_from_spec (xs : list string) (x : string) :
  In x (Set_from xs) <-> In x xs.
Proof.
  unfold Set_from.
  enough (G : forall acc,
             In x (fold_left
                     (fun acc x => if existsb (String.eqb x) acc
                                   then acc else acc ++ [x]) xs acc)
             <-> In x acc \/ In x xs).
  { rewrite G. cbn. tauto. }
  induction xs as [|y ys IH]; intro acc; cbn [fold_left In].
  - tauto.
  - rewrite IH.
    destruct (existsb (String.eqb y) acc) eqn:E.
    + apply existsb_exists in E. destruct E as [z [Hz Heq]].
      apply String.eqb_eq in Heq. subst z.
      split; [tauto |]. intros [H | [H | H]]; subst; auto.
    + rewrite in_app_iff. cbn. tauto.
Qed.

(** *** What the queries read *)

Lemma getCloneAttemptsByModel_run (getTime : string -> JS.number)
    (model : string) (w : World) :
  fst (getCloneAttemptsByModel getTime model w) =
  Ok (JS.sort (newest_first getTime) (Spec.attempts_for model (attempts_of w))).
Proof. world w; reflexivity. Qed.

Lemma getProviderComparison_run (w : World) :
  fst (getProviderComparison w) =
  Ok (JS.sort best_rate_first
        (map (provider_row (attempts_of w))
             (Set_from (map CloneAttempt.provider (attempts_of w))))).
Proof. world w; reflexivity. Qed.

Lemma exportData_run (w : World) :
  fst (exportData w) = Ok (websites_of w, attempts_of w).
Proof. world w; reflexivity. Qed.

Lemma getModelStats_run (getTime : string -> JS.number)
    (model : string) (w : World) :
  let l := Spec.attempts_for model (attempts_of w) in
  let sorted := JS.sort (newest_first getTime) l in
  fst (getModelStats getTime model w) =
  Ok (match l with
      | [] => None
      | _ :: _ =>
          Some (ModelStats.mk
                  (List.length l)
                  (Spec.percentage (List.length (Spec.successful l)) (List.length l))
                  (Spec.mean (map Spec.duration l))
                  (Spec.mean (map Spec.size (Spec.successful l)))
                  (option_map CloneAttempt.created_at (hd_error sorted)))
      end).
Proof.
  intros l sorted.
  pose proof (getCloneAttemptsByModel_run getTime model w) as Hrun.
  fold l in Hrun. fold sorted in Hrun.
  assert (Hperm : Permutation sorted l) by apply sort_perm.
  unfold getModelStats, bind.
  destruct (getCloneAttemptsByModel getTime model w) as [r w1].
  cbn [fst] in Hrun. subst r.
  rewrite (Permutation_length Hperm).
  destruct l as [|a l'] eqn:El.
  - reflexivity.
  - cbn [List.length Nat.eqb ret fst].
    assert (Hsucc : Permutation (filter is_success sorted) (Spec.successful (a :: l')))
      by (apply filter_perm, Hperm).
    unfold Spec.mean, Spec.percentage.
    rewrite (Permutation_length Hsucc).
    rewrite (reduce_sum_perm _ _ _ Hperm), (reduce_sum_perm _ _ _ Hsucc).
    rewrite !reduce_sum_total, !length_map.
    reflexivity.
Qed.

(** *** Provider extraction *)

Lemma includes_In (s : string) (c : ascii) :
  JS.includes s c = true <-> In c (list_ascii_of_string s).
Proof.
  induction s as [|d s IH]; cbn.
  - split; [discriminate | tauto].
  - destruct (Ascii.eqb_spec d c) as [-> | Hne].
    + split; auto.
    + rewrite IH. split; [auto | intros [H | H]; [congruence | exact H]].
Qed.

Lemma split_head_cons (d c : ascii) (s : string) :
  d <> c ->
  hd EmptyString (JS.split (String d s) c) =
  String d (hd EmptyString (JS.split s c)).
Proof.
  intro Hne. cbn [JS.split].
  destruct (Ascii.eqb_spec d c) as [E | _]; [contradiction |].
  destruct (JS.split s c) as [|p ps] eqn:Es; [| reflexivity].
  destruct s as [|e s']; cbn in Es; [discriminate |].
  destruct (Ascii.eqb e c); [discriminate |].
  destruct (JS.split s' c); discriminate.
Qed.

Lemma split_head_prefix (c : ascii) (p rest : string) :
  ~ In c (list_ascii_of_string p) ->
  hd EmptyString (JS.split (p ++ String c rest) c) = p.
Proof.
  induction p as [|d p IH]; intro Hnot.
  - cbn. now rewrite Ascii.eqb_refl.
  - cbn [list_ascii_of_string In] in Hnot.
    change ((String d p ++ String c rest)%string)
      with (String d (p ++ String c rest)%string).
    rewrite split_head_cons by (intro E; apply Hnot; now left).
    rewrite IH by tauto. reflexivity.
Qed.

Lemma first_separator (c : ascii) (s : string) :
  In c (list_ascii_of_string s) ->
  exists p rest,
    s = (p ++ String c rest)%string /\ ~ In c (list_ascii_of_string p).
Proof.
  induction s as [|d s IH]; cbn [list_ascii_of_string In]; [tauto |].
  intro Hin.
  destruct (Ascii.eqb_spec d c) as [-> | Hne].
  - exists EmptyString, s. split; [reflexivity | cbn; tauto].
  - destruct Hin as [E | Hin]; [contradiction |].
    destruct (IH Hin) as [p [rest [-> Hp]]].
    exists (String d p), rest. split; [reflexivity |].
    cbn. intros [E | H]; [contradiction | exact (Hp H)].
Qed.

Lemma extract_provider_with_separator (model p : string) :
  Spec.prefix_before_separator model p -> extract_provider model = p.
Proof.
  intros [rest [-> Hp]]. unfold extract_provider.
  assert (Hinc : JS.includes (p ++ String "/"%char rest) "/"%char = true).
  { apply includes_In.
    clear Hp. induction p as [|d p IHp]; cbn; auto. }
  rewrite Hinc. now apply split_head_prefix.
Qed.

Lemma extract_provider_without_separator (model : string) :
  ~ Spec.has_separator model -> extract_provider model = "unknown".
Proof.
  intro Hnot. unfold extract_provider.
  destruct (JS.includes model "/"%char) eqn:E; [| reflexivity].
  apply includes_In in E. contradiction.
Qed.

(** *** One call of [trackWebsiteClone] *)

Section Track.
Variables (scraped_now created_now url modelUsed generatedCode : string).
Variables (generationTimeMs : Z) (status : track_status).
Variable errorMessage : option string.

Let track : M Z :=
  trackWebsiteClone scraped_now created_now url modelUsed generatedCode
    generationTimeMs status errorMessage.

Lemma trackWebsiteClone_websites (w : World) :
  websites_of (snd (track w)) =
  match lookup_url url (websites_of w) with
  | Some _ => websites_of w
  | None =>
      if writable (websitesFile w)
      then websites_of w ++
           [Website.with_id (placeholder_website scraped_now url)
              (getNextId (websites_of w))]
      else websites_of w
  end.
Proof.
  unfold track, trackWebsiteClone, lookup_url.
  world w; cbn -[getNextId String.eqb];
    try match goal with
        | |- context [find ?p ?l] => destruct (find p l)
        end; reflexivity.
Qed.

Lemma trackWebsiteClone_attempts (w : World) :
  attempts_of (snd (track w)) =
  if writable (attemptsFile w)
  then attempts_of w ++
       [tracked_attempt created_now url modelUsed generatedCode
          generationTimeMs status errorMessage w]
  else attempts_of w.
Proof.
  unfold track, trackWebsiteClone, tracked_attempt, tracked_website_id, lookup_url.
  world w; cbn -[getNextId String.eqb extract_provider newAttempt];
    try match goal with
        | |- context [find ?p ?l] => destruct (find p l)
        end; reflexivity.
Qed.

Lemma trackWebsiteClone_returns (w : World) :
  fst (track w) = Ok (getNextId (attempts_of w)).
Proof.
  unfold track, trackWebsiteClone.
  world w; cbn -[getNextId String.eqb extract_provider newAttempt];
    try match goal with
        | |- context [find ?p ?l] => destruct (find p l)
        end; reflexivity.
Qed.
End Track.

(** ** Referential check (C1) *)




(** ** Failing writes (C4) *)

(** C4, as stated, fails: when the websites file refuses the write,
    [saveWebsite] does not fail; it resolves with the identifier 1 as if the
    record had been stored, and a second call resolves with 1 again. *)
Lemma saveWebsite_refused_write_resolves :
  writable (websitesFile read_only_world) = false /\
  fst (saveWebsite (site "https://stripe.com") read_only_world) = Ok 1 /\
  websites_of (snd (saveWebsite (site "https://stripe.com") read_only_world)) = [] /\
  fst (saveWebsite (site "https://vercel.com")
         (snd (saveWebsite (site "https://stripe.com") read_only_world))) = Ok 1.
Proof. repeat split. Qed.

(** C4, amended: when the data file of [saveWebsite] or of
    [saveCloneAttempt] refuses the write (it cannot be opened for writing),
    the error is caught inside [writeWebsites] / [writeAttempts] and logged
    on the console; the operation does not fail but resolves with the
    identifier it allocated, both data files are left as they were, and the
    next call allocates the same identifier again.  (A write that fails
    after the file was opened is not covered: the file is overwritten in
    place.) *)
Theorem refused_write_is_logged_not_raised
    (f f' : Website.fields) (a a' : CloneAttempt.fields) (w1 w2 : World) :
  writable (websitesFile w1) = false ->
  writable (attemptsFile w2) = false ->
  (fst (saveWebsite f w1) = Ok (getNextId (websites_of w1)) /\
   websitesFile (snd (saveWebsite f w1)) = websitesFile w1 /\
   attemptsFile (snd (saveWebsite f w1)) = attemptsFile w1 /\
   console (snd (saveWebsite f w1)) =
     console w1
     ++ match content (websitesFile w1) with
        | Some _ => []
        | None => ["Error reading websites file:"]
        end
     ++ ["Error writing websites file:"] /\
   fst (saveWebsite f' (snd (saveWebsite f w1))) =
     Ok (getNextId (websites_of w1))) /\
  (fst (saveCloneAttempt a w2) = Ok (getNextId (attempts_of w2)) /\
   websitesFile (snd (saveCloneAttempt a w2)) = websitesFile w2 /\
   attemptsFile (snd (saveCloneAttempt a w2)) = attemptsFile w2 /\
   console (snd (saveCloneAttempt a w2)) =
     console w2
     ++ match content (attemptsFile w2) with
        | Some _ => []
        | None => ["Error reading attempts file:"]
        end
     ++ ["Error writing attempts file:"] /\
   fst (saveCloneAttempt a' (snd (saveCloneAttempt a w2))) =
     Ok (getNextId (attempts_of w2))).
Proof.
  intros H1 H2. split.
  - world w1; cbn in H1; try discriminate; repeat split;
      cbn; rewrite <- ?app_assoc; reflexivity.
  - world w2; cbn in H2; try discriminate; repeat split;
      cbn; rewrite <- ?app_assoc; reflexivity.
Qed.

Lemma refused_write_is_logged_not_raised_witness :
  let f := site "https://stripe.com" in
  let f' := site "https://vercel.com" in
  let a := attempt 1 "ollama/llama3.2:7b" "success" "2025-01-01T00:00:00.000Z" 3500 in
  let a' := attempt 2 "customModel" "error" "2025-01-02T00:00:00.000Z" 10 in
  writable (websitesFile read_only_world) = false /\
  writable (attemptsFile read_only_world) = false /\
  (fst (saveWebsite f read_only_world) = Ok 1 /\
   websitesFile (snd (saveWebsite f read_only_world)) = websitesFile read_only_world /\
   attemptsFile (snd (saveWebsite f read_only_world)) = attemptsFile read_only_world /\
   console (snd (saveWebsite f read_only_world)) = ["Error writing websites file:"] /\
   fst (saveWebsite f' (snd (saveWebsite f read_only_world))) = Ok 1) /\
  (fst (saveCloneAttempt a read_only_world) = Ok 1 /\
   websitesFile (snd (saveCloneAttempt a read_only_world)) = websitesFile read_only_world /\
   attemptsFile (snd (saveCloneAttempt a read_only_world)) = attemptsFile read_only_world /\
   console (snd (saveCloneAttempt a read_only_world)) = ["Error writing attempts file:"] /\
   fst (saveCloneAttempt a' (snd (saveCloneAttempt a read_only_world))) = Ok 1).
Proof.
  cbv zeta.
  split; [reflexivity |]. split; [reflexivity |].
  apply (refused_write_is_logged_not_raised
           (site "https://stripe.com") (site "https://vercel.com")
           (attempt 1 "ollama/llama3.2:7b" "success" "2025-01-01T00:00:00.000Z" 3500)
           (attempt 2 "customModel" "error" "2025-01-02T00:00:00.000Z" 10)
           read_only_world read_only_world); reflexivity.
Defined.

(** ** Field validation (C5) *)




(** ** Calls issued together (C2) *)




(** ** Identifier allocation (C8) *)

Lemma website_inputs_firstn (k : nat) (calls : list call) :
  (List.length (website_inputs (firstn k calls))
   <= List.length (website_inputs calls))%nat.
Proof.
  rewrite <- (firstn_skipn k calls) at 2.
  unfold website_inputs. rewrite flat_map_app, length_app. lia.
Qed.

Lemma attempt_inputs_firstn (k : nat) (calls : list call) :
  (List.length (attempt_inputs (firstn k calls))
   <= List.length (attempt_inputs calls))%nat.
Proof.
  rewrite <- (firstn_skipn k calls) at 2.
  unfold attempt_inputs. rewrite flat_map_app, length_app. lia.
Qed.

(** C8, as stated, fails.  On a file that refuses the write, two creations
    made one after the other are both given the identifier 1.  And on a
    collection that holds the identifier 2^53, the engine's [max + 1] is
    2^53 again, an identifier that is present, not the next integer. *)
Lemma identifier_is_allocated_again :
  let first := site "https://stripe.com" in
  let second := site "https://vercel.com" in
  let stored := [Website.with_id first (MAX_SAFE_INTEGER + 1)] in
  (fst (saveWebsite first read_only_world) = Ok 1 /\
   fst (saveWebsite second (snd (saveWebsite first read_only_world))) = Ok 1) /\
  (getNextId_double stored = MAX_SAFE_INTEGER + 1 /\
   In (getNextId_double stored) (ids stored) /\
   getNextId_double stored <> Math_max (MAX_SAFE_INTEGER + 1) [] + 1).
Proof.
  cbv zeta. split; [split; reflexivity |].
  split; [reflexivity |].
  split; [left; reflexivity | discriminate].
Qed.

(** C8, amended: on a collection whose identifiers are safe integers (of
    magnitude at most 2^53 - 1), the identifier that [saveWebsite] and
    [saveCloneAttempt] give to a new record is 1 when the collection is
    empty and otherwise one more than the greatest identifier present, in
    the arithmetic of the engine as in the integers.  Over any run of
    creations made one after the other that keeps the identifiers safe, on
    a file that accepts writes the identifiers added to a collection are
    the consecutive integers from that value: none of them was already
    present, no two of them are equal, and a collection without repeated
    identifiers stays so.  On a file that refuses the writes nothing is
    added, and the next creation is given the same identifier again. *)
Theorem next_identifier_is_max_plus_one
    (f : Website.fields) (a : CloneAttempt.fields)
    (calls : list call) (w : World) :
  let next_w := getNextId (websites_of w) in
  let next_a := getNextId (attempts_of w) in
  let K := List.length (website_inputs calls) in
  let N := List.length (attempt_inputs calls) in
  let w' := run_sequence calls w in
  safe_ids (websites_of w) ->
  safe_ids (attempts_of w) ->
  next_w + Z.of_nat K <= MAX_SAFE_INTEGER + 1 ->
  next_a + Z.of_nat N <= MAX_SAFE_INTEGER + 1 ->
  (* the value of getNextId *)
  (websites_of w = [] -> next_w = 1) /\
  (websites_of w <> [] ->
     In (next_w - 1) (ids (websites_of w)) /\
     Forall (fun i => i <= next_w - 1) (ids (websites_of w))) /\
  (attempts_of w = [] -> next_a = 1) /\
  (attempts_of w <> [] ->
     In (next_a - 1) (ids (attempts_of w)) /\
     Forall (fun i => i <= next_a - 1) (ids (attempts_of w))) /\
  (* it is the value that the engine computes *)
  getNextId_double (websites_of w) = next_w /\
  getNextId_double (attempts_of w) = next_a /\
  (* it is the identifier returned *)
  fst (saveWebsite f w) = Ok next_w /\
  fst (saveCloneAttempt a w) = Ok next_a /\
  (* a run of creations on a file that accepts writes *)
  (writable (websitesFile w) = true ->
   websites_of (snd (saveWebsite f w)) =
     websites_of w ++ [Website.with_id f next_w] /\
   ids (websites_of w') = ids (websites_of w) ++ Zseq next_w K /\
   (forall i, In i (Zseq next_w K) -> ~ In i (ids (websites_of w))) /\
   (NoDup (ids (websites_of w)) -> NoDup (ids (websites_of w'))) /\
   (forall k,
      let wk := run_sequence (firstn k calls) w in
      safe_ids (websites_of wk) /\
      getNextId_double (websites_of wk) = getNextId (websites_of wk))) /\
  (writable (attemptsFile w) = true ->
   attempts_of (snd (saveCloneAttempt a w)) =
     attempts_of w ++ [newAttempt a next_a] /\
   ids (attempts_of w') = ids (attempts_of w) ++ Zseq next_a N /\
   (forall i, In i (Zseq next_a N) -> ~ In i (ids (attempts_of w))) /\
   (NoDup (ids (attempts_of w)) -> NoDup (ids (attempts_of w'))) /\
   (forall k,
      let wk := run_sequence (firstn k calls) w in
      safe_ids (attempts_of wk) /\
      getNextId_double (attempts_of wk) = getNextId (attempts_of wk))) /\
  (* and on a file that refuses them *)
  (writable (websitesFile w) = false ->
   websites_of w' = websites_of w /\
   fst (saveWebsite f w') = Ok next_w) /\
  (writable (attemptsFile w) = false ->
   attempts_of w' = attempts_of w /\
   fst (saveCloneAttempt a w') = Ok next_a).
Proof.
  intros next_w next_a K N w' Sw Sa Rw Ra.
  assert (max_w : websites_of w <> [] ->
            In (next_w - 1) (ids (websites_of w)) /\
            Forall (fun i => i <= next_w - 1) (ids (websites_of w))).
  { intro Hne. split; [now apply getNextId_pred_In |].
    eapply Forall_impl; [| apply getNextId_above].
    cbn. intros. subst next_w. lia. }
  assert (max_a : attempts_of w <> [] ->
            In (next_a - 1) (ids (attempts_of w)) /\
            Forall (fun i => i <= next_a - 1) (ids (attempts_of w))).
  { intro Hne. split; [now apply getNextId_pred_In |].
    eapply Forall_impl; [| apply getNextId_above].
    cbn. intros. subst next_a. lia. }
  assert (fresh_w : forall n i, In i (Zseq next_w n) -> ~ In i (ids (websites_of w))).
  { intros n i Hi Hold. apply Zseq_In in Hi.
    pose proof (getNextId_above (websites_of w)) as Hall.
    rewrite Forall_forall in Hall. specialize (Hall i Hold).
    subst next_w. lia. }
  assert (fresh_a : forall n i, In i (Zseq next_a n) -> ~ In i (ids (attempts_of w))).
  { intros n i Hi Hold. apply Zseq_In in Hi.
    pose proof (getNextId_above (attempts_of w)) as Hall.
    rewrite Forall_forall in Hall. specialize (Hall i Hold).
    subst next_a. lia. }
  split; [intro E; subst next_w; rewrite E; reflexivity |].
  split; [exact max_w |].
  split; [intro E; subst next_a; rewrite E; reflexivity |].
  split; [exact max_a |].
  split; [apply getNextId_double_safe, Sw |].
  split; [apply getNextId_double_safe, Sa |].
  split; [apply saveWebsite_returns |].
  split; [apply saveCloneAttempt_returns |].
  split; [| split; [| split]].
  - intro Hw.
    assert (Iw : forall calls',
              ids (websites_of (run_sequence calls' w)) =
              ids (websites_of w) ++
              Zseq next_w (List.length (website_inputs calls'))).
    { intro calls'. rewrite run_sequence_websites, Hw.
      unfold ids at 1. rewrite map_app.
      fold (ids (websites_of w)).
      fold (ids (number_websites (getNextId (websites_of w))
                   (website_inputs calls'))).
      now rewrite ids_number_websites. }
    split; [rewrite saveWebsite_websites, Hw; reflexivity |].
    split; [apply Iw |].
    split; [apply fresh_w |].
    split.
    + intro Hnd. subst w'. rewrite Iw.
      apply NoDup_app; [exact Hnd | apply Zseq_NoDup |].
      intros i Hold Hnew. exact (fresh_w _ i Hnew Hold).
    + intros k wk.
      assert (Hsafe : safe_ids (websites_of wk)).
      { unfold safe_ids. subst wk. rewrite Iw.
        apply safe_ids_grow; [exact Sw |].
        pose proof (website_inputs_firstn k calls). subst next_w K. lia. }
      split; [exact Hsafe | apply getNextId_double_safe, Hsafe].
  - intro Ha.
    assert (Ia : forall calls',
              ids (attempts_of (run_sequence calls' w)) =
              ids (attempts_of w) ++
              Zseq next_a (List.length (attempt_inputs calls'))).
    { intro calls'. rewrite run_sequence_attempts, Ha.
      unfold ids at 1. rewrite map_app.
      fold (ids (attempts_of w)).
      fold (ids (number_attempts (getNextId (attempts_of w))
                   (attempt_inputs calls'))).
      now rewrite ids_number_attempts. }
    split; [rewrite saveCloneAttempt_attempts, Ha; reflexivity |].
    split; [apply Ia |].
    split; [apply fresh_a |].
    split.
    + intro Hnd. subst w'. rewrite Ia.
      apply NoDup_app; [exact Hnd | apply Zseq_NoDup |].
      intros i Hold Hnew. exact (fresh_a _ i Hnew Hold).
    + intros k wk.
      assert (Hsafe : safe_ids (attempts_of wk)).
      { unfold safe_ids. subst wk. rewrite Ia.
        apply safe_ids_grow; [exact Sa |].
        pose proof (attempt_inputs_firstn k calls). subst next_a N. lia. }
      split; [exact Hsafe | apply getNextId_double_safe, Hsafe].
  - intro Hw.
    assert (E : websites_of w' = websites_of w)
      by (subst w'; now rewrite run_sequence_websites, Hw).
    split; [exact E |].
    now rewrite saveWebsite_returns, E.
  - intro Ha.
    assert (E : attempts_of w' = attempts_of w)
      by (subst w'; now rewrite run_sequence_attempts, Ha).
    split; [exact E |].
    now rewrite saveCloneAttempt_returns, E.
Qed.

Lemma next_identifier_is_max_plus_one_witness :
  let w := run_sequence [CallSaveWebsite (site "https://stripe.com");
                         CallSaveWebsite (site "https://vercel.com")] empty_world in
  let calls := [CallSaveWebsite (site "https://a.example");
                CallSaveCloneAttempt
                  (attempt 1 "customModel" "success" "2025-01-01T00:00:00.000Z" 5);
                CallSaveWebsite (site "https://b.example")] in
  safe_ids (websites_of w) /\
  safe_ids (attempts_of w) /\
  getNextId (websites_of w) + 2 <= MAX_SAFE_INTEGER + 1 /\
  getNextId (attempts_of w) + 1 <= MAX_SAFE_INTEGER + 1 /\
  writable (websitesFile w) = true /\
  writable (attemptsFile w) = true /\
  websites_of w <> [] /\
  NoDup (ids (websites_of w)) /\
  In (3 - 1) (ids (websites_of w)) /\
  getNextId_double (websites_of w) = 3 /\
  fst (saveWebsite (site "https://c.example") w) = Ok 3 /\
  ids (websites_of (run_sequence calls w)) = [1; 2; 3; 4] /\
  ids (attempts_of (run_sequence calls w)) = [1] /\
  NoDup (ids (websites_of (run_sequence calls w))).
Proof.
  cbv zeta.
  set (w := run_sequence [CallSaveWebsite (site "https://stripe.com");
                          CallSaveWebsite (site "https://vercel.com")]
              empty_world).
  assert (Sw : safe_ids (websites_of w))
    by (repeat constructor; discriminate).
  assert (Sa : safe_ids (attempts_of w)) by constructor.
  assert (Rw : getNextId (websites_of w) + 2 <= MAX_SAFE_INTEGER + 1)
    by discriminate.
  assert (Ra : getNextId (attempts_of w) + 1 <= MAX_SAFE_INTEGER + 1)
    by discriminate.
  assert (Hne : websites_of w <> []) by discriminate.
  assert (Hnd : NoDup (ids (websites_of w))).
  { cbn. repeat constructor; cbn; intuition discriminate. }
  pose proof (next_identifier_is_max_plus_one
                (site "https://c.example")
                (attempt 1 "customModel" "success" "2025-01-01T00:00:00.000Z" 5)
                [CallSaveWebsite (site "https://a.example");
                 CallSaveCloneAttempt
                   (attempt 1 "customModel" "success" "2025-01-01T00:00:00.000Z" 5);
                 CallSaveWebsite (site "https://b.example")]
                w Sw Sa Rw Ra) as T.
  destruct T as [_ [Hmax [_ [_ [Hdouble [_ [Hret [_ [Hrun_w [Hrun_a _]]]]]]]]]].
  destruct (Hrun_w eq_refl) as [_ [Iw [_ [Hkeep _]]]].
  destruct (Hrun_a eq_refl) as [_ [Ia _]].
  split; [exact Sw |]. split; [exact Sa |].
  split; [exact Rw |]. split; [exact Ra |].
  split; [reflexivity |]. split; [reflexivity |].
  split; [exact Hne |].
  split; [exact Hnd |].
  split; [exact (proj1 (Hmax Hne)) |].
  split; [exact Hdouble |].
  split; [exact Hret |].
  split; [exact Iw |].
  split; [exact Ia |].
  exact (Hkeep Hnd).
Defined.

(** ** Export after writing (C9) *)









(** ** Uniqueness of urls (C3) *)

Lemma lookup_url_None (url : string) (websites : list Website.t) :
  lookup_url url websites = None <-> ~ In url (urls websites).
Proof.
  unfold lookup_url, urls. split.
  - intros Hnone Hin. apply in_map_iff in Hin. destruct Hin as [x [Hx Hin]].
    pose proof (find_none _ _ Hnone x Hin) as Hf. cbn in Hf.
    rewrite Hx, String.eqb_refl in Hf. discriminate.
  - intro Hnot.
    destruct (find _ websites) as [x|] eqn:E; [| reflexivity].
    apply find_some in E. destruct E as [Hin Heq].
    apply String.eqb_eq in Heq. exfalso. apply Hnot.
    apply in_map_iff. eauto.
Qed.

Lemma run_track_urls (c : track_call) (w : World) :
  urls (websites_of (run_track c w)) = urls (websites_of w) \/
  (~ In (tc_url c) (urls (websites_of w)) /\
   urls (websites_of (run_track c w)) = urls (websites_of w) ++ [tc_url c]).
Proof.
  unfold run_track. rewrite trackWebsiteClone_websites.
  destruct (lookup_url (tc_url c) (websites_of w)) eqn:E; [now left |].
  destruct (writable (websitesFile w)); [| now left].
  right. split; [now apply lookup_url_None |].
  unfold urls. now rewrite map_app.
Qed.

Lemma run_track_keeps_urls_unique (c : track_call) (w : World) :
  NoDup (urls (websites_of w)) -> NoDup (urls (websites_of (run_track c w))).
Proof.
  intro Hnd.
  destruct (run_track_urls c w) as [-> | [Hnew ->]]; [exact Hnd |].
  apply NoDup_app; [exact Hnd | repeat constructor; cbn; tauto |].
  intros u Hold [<- | []]. contradiction.
Qed.

(** C3, as stated, fails: two [saveWebsite] calls with the same url, made
    one after the other on an empty store, leave two Website records with
    that url. *)
Lemma saveWebsite_twice_duplicates_url :
  let w := run_sequence [CallSaveWebsite (site "https://stripe.com");
                         CallSaveWebsite (site "https://stripe.com")]
             empty_world in
  urls (websites_of w) = ["https://stripe.com"; "https://stripe.com"] /\
  ids (websites_of w) = [1; 2] /\
  ~ NoDup (urls (websites_of w)).
Proof.
  cbv zeta. split; [reflexivity |]. split; [reflexivity |].
  intro Hnd. inversion Hnd as [| u l Hnot _]; subst.
  apply Hnot. now left.
Qed.

Lemma NoDup_map_same {A B} (f : A -> B) (l : list A) (x y : A) :
  NoDup (map f l) -> In x l -> In y l -> f x = f y -> x = y.
Proof.
  induction l as [|z l IH]; cbn; intros Hnd Hx Hy Hxy; [contradiction |].
  inversion Hnd as [| ? ? Hnot Hnd']; subst.
  destruct Hx as [-> | Hx], Hy as [-> | Hy].
  - reflexivity.
  - exfalso. apply Hnot. rewrite Hxy. now apply in_map.
  - exfalso. apply Hnot. rewrite <- Hxy. now apply in_map.
  - now apply IH.
Qed.

(** C3, amended: [trackWebsiteClone] calls made one after the other keep
    Website.url unique: if no two Website records share a url before the
    calls, none do after them, and a further [trackWebsiteClone] whose url
    already has a record creates no Website; it leaves the Website
    collection as it is and the attempt that it stores (the attempts file
    accepting the write) carries the identifier of the existing record,
    the only one with that url.  ([saveWebsite] itself does not look at the
    url.) *)
Theorem trackWebsiteClone_keeps_urls_unique
    (calls : list track_call) (c : track_call) (w : World) :
  NoDup (urls (websites_of w)) ->
  let w' := run_tracks calls w in
  NoDup (urls (websites_of w')) /\
  (In (tc_url c) (urls (websites_of w')) ->
   websites_of (run_track c w') = websites_of w' /\
   exists site,
     In site (websites_of w') /\
     Website.url site = tc_url c /\
     (forall other,
        In other (websites_of w') -> Website.url other = tc_url c ->
        other = site) /\
     tracked_website_id (tc_url c) w' = Website.id site /\
     (writable (attemptsFile w') = true ->
      exists a,
        attempts_of (run_track c w') = attempts_of w' ++ [a] /\
        CloneAttempt.website_id a = Website.id site /\
        CloneAttempt.model_used a = tc_modelUsed c /\
        CloneAttempt.created_at a = tc_created_now c)).
Proof.
  intros Hnd w'.
  assert (Hnd' : NoDup (urls (websites_of w'))).
  { subst w'. revert w Hnd.
    induction calls as [|d calls IH]; intros w Hnd; cbn; [exact Hnd |].
    apply IH, run_track_keeps_urls_unique, Hnd. }
  split; [exact Hnd' |].
  intro Hin.
  unfold run_track.
  rewrite trackWebsiteClone_websites, trackWebsiteClone_attempts.
  unfold tracked_attempt, tracked_website_id.
  destruct (lookup_url (tc_url c) (websites_of w')) as [site|] eqn:E.
  - split; [reflexivity |].
    exists site. unfold lookup_url in E. apply find_some in E.
    destruct E as [Hs Heq]. apply String.eqb_eq in Heq.
    split; [exact Hs |]. split; [exact Heq |].
    split.
    { intros other Hother Hurl.
      apply (NoDup_map_same Website.url (websites_of w')); auto.
      congruence. }
    split; [reflexivity |].
    intros ->. eexists. split; [reflexivity |].
    repeat split.
  - apply lookup_url_None in E. contradiction.
Qed.

Lemma trackWebsiteClone_keeps_urls_unique_witness :
  let first := mk_track_call "2025-01-01T00:00:00.000Z" "2025-01-01T00:00:01.000Z"
                 "https://stripe.com" "ollama/llama3.2:7b" "code" 3000
                 StatusSuccess None in
  let again := mk_track_call "2025-01-02T00:00:00.000Z" "2025-01-02T00:00:01.000Z"
                 "https://stripe.com" "customModel" "code" 4000
                 StatusError (Some "timeout") in
  let w' := run_tracks [first] empty_world in
  NoDup (urls (websites_of empty_world)) /\
  In (tc_url again) (urls (websites_of w')) /\
  writable (attemptsFile w') = true /\
  NoDup (urls (websites_of w')) /\
  websites_of (run_track again w') = websites_of w' /\
  exists site a,
    In site (websites_of w') /\
    Website.url site = tc_url again /\
    attempts_of (run_track again w') = attempts_of w' ++ [a] /\
    CloneAttempt.website_id a = Website.id site.
Proof.
  cbv zeta.
  assert (Hnd : NoDup (urls (websites_of empty_world))) by constructor.
  split; [exact Hnd |].
  destruct (trackWebsiteClone_keeps_urls_unique
              [mk_track_call "2025-01-01T00:00:00.000Z" "2025-01-01T00:00:01.000Z"
                 "https://stripe.com" "ollama/llama3.2:7b" "code" 3000
                 StatusSuccess None]
              (mk_track_call "2025-01-02T00:00:00.000Z" "2025-01-02T00:00:01.000Z"
                 "https://stripe.com" "customModel" "code" 4000
                 StatusError (Some "timeout"))
              empty_world Hnd) as [Hunique Hreuse].
  assert (Hin : In "https://stripe.com"
                  (urls (websites_of
                     (run_tracks
                        [mk_track_call "2025-01-01T00:00:00.000Z"
                           "2025-01-01T00:00:01.000Z" "https://stripe.com"
                           "ollama/llama3.2:7b" "code" 3000 StatusSuccess None]
                        empty_world)))) by (cbn; auto).
  split; [exact Hin |].
  split; [reflexivity |].
  split; [exact Hunique |].
  destruct (Hreuse Hin) as [Hsame [site [Hsite [Hurl [_ [_ Hstored]]]]]].
  split; [exact Hsame |].
  destruct (Hstored eq_refl) as [a [Ha [Hid _]]].
  exists site, a.
  split; [exact Hsite |]. split; [exact Hurl |]. split; [exact Ha | exact Hid].
Defined.

(** ** Provider derivation (C7) *)

Lemma extract_provider_is_prefix (model : string) :
  Spec.has_separator model ->
  Spec.prefix_before_separator model (extract_provider model).
Proof.
  intro Hsep.
  destruct (first_separator "/"%char model Hsep) as [p [rest [E Hp]]].
  assert (Hpre : Spec.prefix_before_separator model p) by (exists rest; auto).
  now rewrite (extract_provider_with_separator model p Hpre).
Qed.

(** C7: the attempt that [trackWebsiteClone] stores (the attempts file
    accepting the write) carries the model identifier it was given and, as
    provider, the part of that identifier before its first ['/'], or
    ["unknown"] when the identifier has no ['/'].  So ["ollama/llama3.2:7b"]
    gives ["ollama"] and ["customModel"] gives ["unknown"]. *)
Theorem trackWebsiteClone_derives_provider
    (scraped_now created_now url modelUsed generatedCode : string)
    (generationTimeMs : Z) (status : track_status)
    (errorMessage : option string) (w : World) :
  writable (attemptsFile w) = true ->
  exists a,
    attempts_of
      (snd (trackWebsiteClone scraped_now created_now url modelUsed
              generatedCode generationTimeMs status errorMessage w)) =
      attempts_of w ++ [a] /\
    CloneAttempt.model_used a = modelUsed /\
    (Spec.has_separator modelUsed ->
     Spec.prefix_before_separator modelUsed (CloneAttempt.provider a)) /\
    (forall p, Spec.prefix_before_separator modelUsed p ->
               CloneAttempt.provider a = p) /\
    (~ Spec.has_separator modelUsed -> CloneAttempt.provider a = "unknown") /\
    (modelUsed = "ollama/llama3.2:7b" -> CloneAttempt.provider a = "ollama") /\
    (modelUsed = "customModel" -> CloneAttempt.provider a = "unknown").
Proof.
  intro Hw.
  exists (tracked_attempt created_now url modelUsed generatedCode
            generationTimeMs status errorMessage w).
  rewrite trackWebsiteClone_attempts, Hw.
  split; [reflexivity |].
  split; [reflexivity |].
  cbn [tracked_attempt newAttempt CloneAttempt.provider CloneAttempt.f_provider].
  split; [apply extract_provider_is_prefix |].
  split; [apply extract_provider_with_separator |].
  split; [apply extract_provider_without_separator |].
  split; intros ->; reflexivity.
Qed.

Lemma trackWebsiteClone_derives_provider_witness :
  exists a,
    attempts_of
      (snd (trackWebsiteClone "2025-01-01T00:00:00.000Z" "2025-01-01T00:00:01.000Z"
              "https://stripe.com" "ollama/llama3.2:7b" "code" 3000
              StatusSuccess None empty_world)) = [a] /\
    CloneAttempt.provider a = "ollama".
Proof.
  destruct (trackWebsiteClone_derives_provider
              "2025-01-01T00:00:00.000Z" "2025-01-01T00:00:01.000Z"
              "https://stripe.com" "ollama/llama3.2:7b" "code" 3000
              StatusSuccess None empty_world eq_refl)
    as [a [Hstored [_ [_ [_ [_ [Hollama _]]]]]]].
  exists a. split; [exact Hstored | exact (Hollama eq_refl)].
Defined.

(** ** Model statistics (C6) *)

Lemma Num_eq (x y : Qc) : (this x == this y)%Q -> JS.Num x = JS.Num y.
Proof. intro E. f_equal. now apply Qc_is_canon. Qed.

Lemma percentage_two_of_three :
  Spec.percentage 2 3 = JS.Num (Q2Qc (200 # 3)).
Proof. vm_compute. apply Num_eq. reflexivity. Qed.

Lemma mean_of_example_durations :
  Spec.mean [3000; 4000; 5000] = JS.of_Z 4000.
Proof. vm_compute. apply Num_eq. reflexivity. Qed.

(** C6: let [l] be the attempts recorded for a model.  When [l] is empty
    [getModelStats] returns [null].  Otherwise it returns a record whose
    [total_attempts] is the number of attempts in [l], whose [success_rate]
    is the number of attempts of [l] with status ["success"] divided by that
    total, times 100, whose [avg_generation_time_ms] is the mean of
    [generation_time_ms] over [l] and whose [avg_code_size_bytes] is the
    mean of [code_size_bytes] over the successful attempts of [l] (a missing
    measurement counting as 0, a mean being the total divided by the count).
    For three attempts of 3000, 4000 and 5000 ms with statuses success,
    success, error this gives a total of 3, a success rate within 0.01 of
    66.67 and an average time of 4000. *)
Theorem getModelStats_aggregates
    (getTime : string -> JS.number) (model : string) (w : World) :
  let l := Spec.attempts_for model (attempts_of w) in
  let result := fst (getModelStats getTime model w) in
  (l = [] -> result = Ok None) /\
  (l <> [] ->
   exists s,
     result = Ok (Some s) /\
     ModelStats.total_attempts s = List.length l /\
     ModelStats.success_rate s =
       Spec.percentage (List.length (Spec.successful l)) (List.length l) /\
     ModelStats.avg_generation_time_ms s = Spec.mean (map Spec.duration l) /\
     ModelStats.avg_code_size_bytes s =
       Spec.mean (map Spec.size (Spec.successful l))) /\
  (map measurement l = example_measurements ->
   exists s rate,
     result = Ok (Some s) /\
     ModelStats.total_attempts s = 3%nat /\
     ModelStats.success_rate s = JS.Num rate /\
     (Q2Qc (6666 # 100) <= rate)%Qc /\
     (rate <= Q2Qc (6668 # 100))%Qc /\
     ModelStats.avg_generation_time_ms s = JS.of_Z 4000).
Proof.
  intros l result.
  pose proof (getModelStats_run getTime model w) as Hrun.
  cbv zeta in Hrun. fold l in Hrun. fold result in Hrun.
  split; [| split].
  - intro E. rewrite Hrun, E. reflexivity.
  - intro Hne. destruct l as [|a l'] eqn:El; [congruence |].
    eexists. split; [exact Hrun |]. cbn. auto.
  - intro Hex.
    destruct l as [|a1 [|a2 [|a3 [|a4 l']]]] eqn:El; try discriminate Hex.
    unfold example_measurements, measurement in Hex. cbn [map] in Hex.
    injection Hex as T1 S1 T2 S2 T3 S3.
    exists (ModelStats.mk 3
              (Spec.percentage 2 3) (JS.of_Z 4000)
              (Spec.mean (map Spec.size [a1; a2]))
              (option_map CloneAttempt.created_at
                 (hd_error (JS.sort (newest_first getTime) [a1; a2; a3])))).
    exists (Q2Qc (200 # 3)).
    split.
    { rewrite Hrun. unfold Spec.successful. cbn [filter List.length map].
      unfold Spec.duration. rewrite T1, T2, T3, S1, S2, S3.
      cbn [String.eqb Ascii.eqb Bool.eqb List.length map].
      rewrite mean_of_example_durations. reflexivity. }
    split; [reflexivity |].
    split; [exact percentage_two_of_three |].
    split; [vm_compute; discriminate |].
    split; [vm_compute; discriminate |].
    reflexivity.
Qed.

Lemma getModelStats_aggregates_witness :
  let l := Spec.attempts_for "ollama/llama3.2:7b" (attempts_of stats_world) in
  let result := fst (getModelStats sample_clock "ollama/llama3.2:7b" stats_world) in
  l <> [] /\
  map measurement l = example_measurements /\
  (exists s,
     result = Ok (Some s) /\
     ModelStats.total_attempts s = List.length l /\
     ModelStats.success_rate s =
       Spec.percentage (List.length (Spec.successful l)) (List.length l) /\
     ModelStats.avg_generation_time_ms s = Spec.mean (map Spec.duration l) /\
     ModelStats.avg_code_size_bytes s =
       Spec.mean (map Spec.size (Spec.successful l))) /\
  (exists s rate,
     result = Ok (Some s) /\
     ModelStats.total_attempts s = 3%nat /\
     ModelStats.success_rate s = JS.Num rate /\
     (Q2Qc (6666 # 100) <= rate)%Qc /\
     (rate <= Q2Qc (6668 # 100))%Qc /\
     ModelStats.avg_generation_time_ms s = JS.of_Z 4000).
Proof.
  cbv zeta.
  destruct (getModelStats_aggregates sample_clock "ollama/llama3.2:7b" stats_world)
    as [_ [Hsome Hexample]].
  assert (Hne : Spec.attempts_for "ollama/llama3.2:7b" (attempts_of stats_world) <> [])
    by (vm_compute; discriminate).
  assert (Hex : map measurement
                  (Spec.attempts_for "ollama/llama3.2:7b" (attempts_of stats_world))
                = example_measurements) by reflexivity.
  split; [exact Hne |].
  split; [exact Hex |].
  split; [exact (Hsome Hne) | exact (Hexample Hex)].
Defined.

(** ** Zero successful attempts (C10) *)

Lemma provider_row_without_success (attempts : list CloneAttempt.t) (p : string) :
  Spec.successful (Spec.attempts_by p attempts) = [] ->
  ProviderRow.avg_code_size (provider_row attempts p) = JS.of_Z 0.
Proof.
  intro Hnone. unfold provider_row. cbn [ProviderRow.avg_code_size].
  change (filter is_success
            (filter (fun a => String.eqb (CloneAttempt.provider a) p) attempts))
    with (Spec.successful (Spec.attempts_by p attempts)).
  rewrite Hnone. reflexivity.
Qed.

(** C10: for a model that has recorded attempts, none of them successful,
    [getModelStats] returns a record (not [null]) whose
    [avg_code_size_bytes] is the quotient of the empty sum 0 by the count 0
    of successful attempts, which is [NaN]: the division is made without a
    test on the count.  For a provider in the same situation
    [getProviderComparison] has one row, and its [avg_code_size] is 0,
    through the [|| 0] that follows the division. *)
Theorem zero_success_average_size
    (getTime : string -> JS.number) (model provider : string) (w : World) :
  let l := Spec.attempts_for model (attempts_of w) in
  let by_provider := Spec.attempts_by provider (attempts_of w) in
  (l <> [] -> Spec.successful l = [] ->
   exists s,
     fst (getModelStats getTime model w) = Ok (Some s) /\
     ModelStats.avg_code_size_bytes s = JS.div (JS.of_Z 0) (JS.of_nat 0) /\
     ModelStats.avg_code_size_bytes s = JS.NaN) /\
  (by_provider <> [] -> Spec.successful by_provider = [] ->
   exists rows,
     fst (getProviderComparison w) = Ok rows /\
     (exists row, In row rows /\ ProviderRow.provider row = provider) /\
     (forall row, In row rows -> ProviderRow.provider row = provider ->
                  ProviderRow.avg_code_size row = JS.of_Z 0)).
Proof.
  intros l by_provider. split.
  - intros Hne Hnone.
    pose proof (getModelStats_run getTime model w) as Hrun.
    cbv zeta in Hrun. fold l in Hrun.
    destruct l as [|a l'] eqn:El; [congruence |].
    eexists. split; [exact Hrun |].
    cbn [ModelStats.avg_code_size_bytes]. rewrite Hnone.
    split; reflexivity.
  - intros Hne Hnone.
    rewrite getProviderComparison_run.
    set (rows := map (provider_row (attempts_of w))
                   (Set_from (map CloneAttempt.provider (attempts_of w)))).
    exists (JS.sort best_rate_first rows).
    split; [reflexivity |].
    split.
    + exists (provider_row (attempts_of w) provider).
      split; [| reflexivity].
      apply (Permutation_in _ (Permutation_sym (sort_perm best_rate_first rows))).
      apply in_map, Set_from_spec.
      destruct by_provider as [|a rest] eqn:Eb; [congruence |].
      assert (Ha : In a (Spec.attempts_by provider (attempts_of w)))
        by (fold by_provider; rewrite Eb; now left).
      apply filter_In in Ha. destruct Ha as [Hin Hp].
      apply String.eqb_eq in Hp. rewrite <- Hp. now apply in_map.
    + intros row Hin Hp.
      apply (Permutation_in _ (sort_perm best_rate_first rows)) in Hin.
      apply in_map_iff in Hin. destruct Hin as [p [<- _]].
      cbn [provider_row ProviderRow.provider] in Hp. subst p.
      now apply provider_row_without_success.
Qed.

Lemma zero_success_average_size_witness :
  let l := Spec.attempts_for "vllm/CodeLlama" (attempts_of stats_world) in
  let by_provider := Spec.attempts_by "vllm" (attempts_of stats_world) in
  l <> [] /\ Spec.successful l = [] /\
  by_provider <> [] /\ Spec.successful by_provider = [] /\
  (exists s,
     fst (getModelStats sample_clock "vllm/CodeLlama" stats_world) = Ok (Some s) /\
     ModelStats.avg_code_size_bytes s = JS.div (JS.of_Z 0) (JS.of_nat 0) /\
     ModelStats.avg_code_size_bytes s = JS.NaN) /\
  (exists rows,
     fst (getProviderComparison stats_world) = Ok rows /\
     (exists row, In row rows /\ ProviderRow.provider row = "vllm") /\
     (forall row, In row rows -> ProviderRow.provider row = "vllm" ->
                  ProviderRow.avg_code_size row = JS.of_Z 0)).
Proof.
  cbv zeta.
  destruct (zero_success_average_size sample_clock "vllm/CodeLlama" "vllm" stats_world)
    as [Hmodel Hprovider].
  assert (H1 : Spec.attempts_for "vllm/CodeLlama" (attempts_of stats_world) <> [])
    by (vm_compute; discriminate).
  assert (H2 : Spec.successful
                 (Spec.attempts_for "vllm/CodeLlama" (attempts_of stats_world)) = [])
    by reflexivity.
  assert (H3 : Spec.attempts_by "vllm" (attempts_of stats_world) <> [])
    by (vm_compute; discriminate).
  assert (H4 : Spec.successful (Spec.attempts_by "vllm" (attempts_of stats_world)) = [])
    by reflexivity.
  split; [exact H1 |]. split; [exact H2 |].
  split; [exact H3 |]. split; [exact H4 |].
  split; [exact (Hmodel H1 H2) | exact (Hprovider H3 H4)].
Defined.

(** * Further properties of the store and of the route *)

(** ** Order produced by [sort] *)

Lemma keeps_order_difference (x y : Qc) :
  JS.keeps_order (JS.Num (y - x)) = true <-> (y <= x)%Qc.
Proof.
  assert (Hshift : (y <= x)%Qc <-> (y - x <= 0)%Qc).
  { rewrite (Qcle_minus_iff y x), (Qcle_minus_iff (y - x) 0%Qc).
    replace (0 + - (y - x))%Qc with (x + - y)%Qc by ring.
    tauto. }
  rewrite Hshift, Qcle_alt.
  unfold JS.keeps_order, JS.sgn.
  destruct ((y - x) ?= 0)%Qc; split; congruence.
Qed.

Section SortedByKey.

Context {A : Type} (cmp : A -> A -> JS.number).

(** [key] measures the elements that satisfy [good]; on those the
    comparator is the difference of the keys, greater key first. *)
Variables (key : A -> Qc) (good : A -> Prop).
Hypothesis cmp_key :
  forall x y, good x -> good y -> cmp x y = JS.Num (key y - key x).

Lemma insert_keeps_sorted (x : A) (l : list A) :
  good x -> Forall good l ->
  StronglySorted (key_not_below key) l ->
  StronglySorted (key_not_below key) (JS.insert cmp x l).
Proof.
  intros Hx Hl Hs.
  induction Hs as [| y l Hs IH Hy]; cbn.
  - repeat constructor.
  - inversion Hl as [| ? ? Hgy Hgl]; subst.
    rewrite (cmp_key x y Hx Hgy).
    destruct (JS.keeps_order (JS.Num (key y - key x))) eqn:E.
    + apply keeps_order_difference in E.
      constructor; [constructor; assumption |].
      constructor; [exact E |].
      eapply Forall_impl; [| exact Hy].
      unfold key_not_below. intros z Hz.
      eapply Qcle_trans; eassumption.
    + constructor; [apply IH, Hgl |].
      assert (Hyx : key_not_below key y x).
      { unfold key_not_below.
        destruct (Qclt_le_dec (key x) (key y)) as [Hlt | Hle].
        - now apply Qclt_le_weak.
        - apply keeps_order_difference in Hle. congruence. }
      apply (Permutation_Forall (Permutation_sym (insert_perm cmp x l))).
      constructor; assumption.
Qed.

Lemma sort_sorted (l : list A) :
  Forall good l -> StronglySorted (key_not_below key) (JS.sort cmp l).
Proof.
  unfold JS.sort.
  induction l as [|x l IH]; intro Hl; cbn.
  - constructor.
  - inversion Hl; subst.
    apply insert_keeps_sorted; auto.
    apply (Permutation_Forall (Permutation_sym (sort_perm cmp l))).
    assumption.
Qed.

End SortedByKey.

(** ** The listing queries *)

Lemma sub_finite (a b : JS.number) :
  is_finite a -> is_finite b ->
  JS.sub b a = JS.Num (number_value b - number_value a).
Proof. unfold is_finite. intros -> ->. reflexivity. Qed.

Lemma newest_first_sorted (getTime : string -> JS.number)
    (l : list CloneAttempt.t) :
  Forall (created_parses getTime) l ->
  StronglySorted (key_not_below (created_time getTime))
                 (JS.sort (newest_first getTime) l).
Proof.
  apply sort_sorted. intros x y Hx Hy.
  unfold newest_first, created_time. now apply sub_finite.
Qed.

Lemma getCloneAttemptsByWebsite_run (getTime : string -> JS.number)
    (websiteId : Z) (w : World) :
  fst (getCloneAttemptsByWebsite getTime websiteId w) =
  Ok (JS.sort (newest_first getTime)
        (filter (fun a => Z.eqb (CloneAttempt.website_id a) websiteId)
                (attempts_of w))).
Proof. world w; reflexivity. Qed.

Lemma getAllWebsites_run (getTime : string -> JS.number) (w : World) :
  fst (getAllWebsites getTime w) =
  Ok (JS.sort (newest_scraped_first getTime) (websites_of w)).
Proof. world w; reflexivity. Qed.

Lemma Forall_filter {A} (P : A -> Prop) (p : A -> bool) (l : list A) :
  Forall P l -> Forall P (filter p l).
Proof.
  intro H. apply Forall_forall. intros x Hx.
  apply filter_In in Hx. rewrite Forall_forall in H. now apply H.
Qed.

(** X1: [getCloneAttemptsByModel] returns exactly the stored attempts whose
    [model_used] is the model asked for, each as often as it is stored; and
    when every [created_at] in the collection is a date that parses, they
    come newest first. *)
Theorem getCloneAttemptsByModel_newest_first
    (getTime : string -> JS.number) (model : string) (w : World) :
  exists l,
    fst (getCloneAttemptsByModel getTime model w) = Ok l /\
    Permutation l (Spec.attempts_for model (attempts_of w)) /\
    (forall a, In a l <->
               In a (attempts_of w) /\ CloneAttempt.model_used a = model) /\
    (Forall (created_parses getTime) (attempts_of w) ->
     StronglySorted (key_not_below (created_time getTime)) l).
Proof.
  eexists. split; [apply getCloneAttemptsByModel_run |].
  assert (Hperm : Permutation
                    (JS.sort (newest_first getTime)
                       (Spec.attempts_for model (attempts_of w)))
                    (Spec.attempts_for model (attempts_of w)))
    by apply sort_perm.
  split; [exact Hperm |]. split.
  - intro a. split.
    + intro Hin. apply (Permutation_in _ Hperm) in Hin.
      apply filter_In in Hin. now rewrite String.eqb_eq in Hin.
    + intros [Hin Hm]. apply (Permutation_in _ (Permutation_sym Hperm)).
      apply filter_In. now rewrite String.eqb_eq.
  - intro Hparse. apply newest_first_sorted, Forall_filter, Hparse.
Qed.

Lemma getCloneAttemptsByModel_newest_first_witness :
  Forall (created_parses sample_clock) (attempts_of stats_world) /\
  exists l,
    fst (getCloneAttemptsByModel sample_clock "ollama/llama3.2:7b" stats_world) = Ok l /\
    StronglySorted (key_not_below (created_time sample_clock)) l.
Proof.
  assert (Hparse : Forall (created_parses sample_clock) (attempts_of stats_world))
    by (repeat constructor).
  split; [exact Hparse |].
  destruct (getCloneAttemptsByModel_newest_first sample_clock
              "ollama/llama3.2:7b" stats_world) as [l [Hrun [_ [_ Hsorted]]]].
  exists l. split; [exact Hrun | exact (Hsorted Hparse)].
Defined.

(** X2: [getCloneAttemptsByWebsite] returns exactly the stored attempts
    whose [website_id] is the identifier asked for; when every [created_at]
    parses they come newest first.  An identifier that no attempt carries
    gives the empty list. *)
Theorem getCloneAttemptsByWebsite_newest_first
    (getTime : string -> JS.number) (websiteId : Z) (w : World) :
  exists l,
    fst (getCloneAttemptsByWebsite getTime websiteId w) = Ok l /\
    (forall a, In a l <->
               In a (attempts_of w) /\ CloneAttempt.website_id a = websiteId) /\
    List.length l =
      List.length (filter (fun a => Z.eqb (CloneAttempt.website_id a) websiteId)
                          (attempts_of w)) /\
    (~ In websiteId (map CloneAttempt.website_id (attempts_of w)) -> l = []) /\
    (Forall (created_parses getTime) (attempts_of w) ->
     StronglySorted (key_not_below (created_time getTime)) l).
Proof.
  eexists. split; [apply getCloneAttemptsByWebsite_run |].
  set (chosen := filter (fun a => Z.eqb (CloneAttempt.website_id a) websiteId)
                        (attempts_of w)).
  assert (Hperm : Permutation (JS.sort (newest_first getTime) chosen) chosen)
    by apply sort_perm.
  split; [| split; [| split]].
  - intro a. split.
    + intro Hin. apply (Permutation_in _ Hperm) in Hin.
      apply filter_In in Hin. now rewrite Z.eqb_eq in Hin.
    + intros [Hin Hm]. apply (Permutation_in _ (Permutation_sym Hperm)).
      apply filter_In. now rewrite Z.eqb_eq.
  - apply Permutation_length, Hperm.
  - intro Hnone.
    assert (Hempty : chosen = []).
    { destruct chosen as [|a rest] eqn:E; [reflexivity |].
      assert (Ha : In a chosen) by (rewrite E; now left).
      apply filter_In in Ha. destruct Ha as [Hin Hid].
      apply Z.eqb_eq in Hid. exfalso. apply Hnone.
      rewrite <- Hid. now apply in_map. }
    rewrite Hempty. reflexivity.
  - intro Hparse. apply newest_first_sorted, Forall_filter, Hparse.
Qed.

Lemma getCloneAttemptsByWebsite_newest_first_witness :
  Forall (created_parses sample_clock) (attempts_of stats_world) /\
  ~ In 9 (map CloneAttempt.website_id (attempts_of stats_world)) /\
  (exists l,
     fst (getCloneAttemptsByWebsite sample_clock 1 stats_world) = Ok l /\
     StronglySorted (key_not_below (created_time sample_clock)) l) /\
  (exists l,
     fst (getCloneAttemptsByWebsite sample_clock 9 stats_world) = Ok l /\ l = []).
Proof.
  assert (Hparse : Forall (created_parses sample_clock) (attempts_of stats_world))
    by (repeat constructor).
  assert (Hnone : ~ In 9 (map CloneAttempt.website_id (attempts_of stats_world)))
    by (cbn; intuition discriminate).
  split; [exact Hparse |]. split; [exact Hnone |]. split.
  - destruct (getCloneAttemptsByWebsite_newest_first sample_clock 1 stats_world)
      as [l [Hrun [_ [_ [_ Hsorted]]]]].
    exists l. split; [exact Hrun | exact (Hsorted Hparse)].
  - destruct (getCloneAttemptsByWebsite_newest_first sample_clock 9 stats_world)
      as [l [Hrun [_ [_ [Hempty _]]]]].
    exists l. split; [exact Hrun | exact (Hempty Hnone)].
Defined.

(** X3: [getAllWebsites] returns every stored Website, each as often as it
    is stored; when every [scraped_at] parses they come newest-scraped
    first. *)
Theorem getAllWebsites_newest_first
    (getTime : string -> JS.number) (w : World) :
  exists l,
    fst (getAllWebsites getTime w) = Ok l /\
    Permutation l (websites_of w) /\
    (Forall (scraped_parses getTime) (websites_of w) ->
     StronglySorted (key_not_below (scraped_time getTime)) l).
Proof.
  eexists. split; [apply getAllWebsites_run |].
  split; [apply sort_perm |].
  intro Hparse. apply sort_sorted with (good := scraped_parses getTime).
  - intros x y Hx Hy. unfold newest_scraped_first, scraped_time.
    now apply sub_finite.
  - exact Hparse.
Qed.

Lemma getAllWebsites_newest_first_witness :
  let w := run_sequence [CallSaveWebsite (site "https://stripe.com");
                         CallSaveWebsite (site "https://vercel.com")] empty_world in
  Forall (scraped_parses sample_clock) (websites_of w) /\
  exists l,
    fst (getAllWebsites sample_clock w) = Ok l /\
    Permutation l (websites_of w) /\
    StronglySorted (key_not_below (scraped_time sample_clock)) l.
Proof.
  cbv zeta.
  assert (Hparse : Forall (scraped_parses sample_clock)
                     (websites_of
                        (run_sequence [CallSaveWebsite (site "https://stripe.com");
                                       CallSaveWebsite (site "https://vercel.com")]
                           empty_world))) by (repeat constructor).
  split; [exact Hparse |].
  destruct (getAllWebsites_newest_first sample_clock
              (run_sequence [CallSaveWebsite (site "https://stripe.com");
                             CallSaveWebsite (site "https://vercel.com")]
                 empty_world)) as [l [Hrun [Hperm Hsorted]]].
  exists l. split; [exact Hrun |]. split; [exact Hperm | exact (Hsorted Hparse)].
Defined.

(** ** Values of the statistics *)

Lemma sgn_of_Z (z : Z) : JS.sgn (Q2Qc (inject_Z z)) = (z ?= 0)%Z.
Proof.
  unfold JS.sgn, Qccompare. cbn [this Q2Qc]. rewrite <- Qred_compare.
  unfold Qcompare, inject_Z. cbn. now rewrite Z.mul_1_r.
Qed.

Lemma div_by_count (a : Z) (n : nat) :
  n <> O ->
  JS.div (JS.of_Z a) (JS.of_nat n) =
  JS.Num (Q2Qc (inject_Z a) / Q2Qc (inject_Z (Z.of_nat n)))%Qc.
Proof.
  intro Hn. unfold JS.div, JS.of_nat, JS.of_Z. rewrite sgn_of_Z.
  destruct (Z.compare_spec (Z.of_nat n) 0) as [E | E | E]; try lia; reflexivity.
Qed.

Lemma div_by_zero_count (a : Z) :
  JS.div (JS.of_Z a) (JS.of_nat 0) <> JS.Num (number_value (JS.div (JS.of_Z a) (JS.of_nat 0))).
Proof.
  unfold JS.div, JS.of_nat, JS.of_Z. rewrite !sgn_of_Z. cbn [Z.of_nat Z.compare].
  destruct (a ?= 0)%Z; discriminate.
Qed.

Lemma percentage_bounds (k n : nat) :
  (k <= n)%nat -> n <> O ->
  exists q,
    Spec.percentage k n = JS.Num q /\
    (0 <= q)%Qc /\ (q <= Q2Qc (inject_Z 100))%Qc.
Proof.
  intros Hk Hn. unfold Spec.percentage.
  unfold JS.of_nat at 1. rewrite (div_by_count (Z.of_nat k) n Hn).
  eexists. split; [reflexivity |].
  unfold Qcle, Qcdiv, Qcmult, Qcinv, Q2Qc. cbn [this].
  rewrite !Qred_correct.
  assert (Hn' : (0 < inject_Z (Z.of_nat n))%Q)
    by (change 0%Q with (inject_Z 0); rewrite <- Zlt_Qlt; lia).
  assert (Hk' : (0 <= inject_Z (Z.of_nat k))%Q)
    by (change 0%Q with (inject_Z 0); rewrite <- Zle_Qle; lia).
  assert (Hkn : (inject_Z (Z.of_nat k) <= inject_Z (Z.of_nat n))%Q)
    by (rewrite <- Zle_Qle; lia).
  split.
  - apply Qmult_le_0_compat; [| discriminate].
    apply Qmult_le_0_compat; [exact Hk' |].
    apply Qinv_le_0_compat. now apply Qlt_le_weak.
  - rewrite <- (Qmult_1_l (inject_Z 100)) at 2.
    apply Qmult_le_compat_r; [| discriminate].
    apply Qle_shift_div_r; [exact Hn' |].
    now rewrite Qmult_1_l.
Qed.

Lemma Ok_inj {A} (x y : A) : Ok x = Ok y -> x = y.
Proof. intro H. now injection H. Qed.

Lemma Ok_Some_inj {A} (x y : A) : Ok (Some x) = Ok (Some y) -> x = y.
Proof. intro H. now injection H. Qed.

Lemma filter_length_le {A} (p : A -> bool) (l : list A) :
  (List.length (filter p l) <= List.length l)%nat.
Proof.
  induction l as [|x l IH]; cbn; [lia |].
  destruct (p x); cbn; lia.
Qed.

(** X4: whenever [getModelStats] returns a record, its [total_attempts] is
    at least 1, its [success_rate] is a number between 0 and 100, and its
    [avg_generation_time_ms] is a finite number; its [avg_code_size_bytes]
    is a finite number exactly when the model has a successful attempt. *)
Theorem getModelStats_values
    (getTime : string -> JS.number) (model : string) (w : World)
    (s : ModelStats.t) :
  fst (getModelStats getTime model w) = Ok (Some s) ->
  (1 <= ModelStats.total_attempts s)%nat /\
  (exists q, ModelStats.success_rate s = JS.Num q /\
             (0 <= q)%Qc /\ (q <= Q2Qc (inject_Z 100))%Qc) /\
  is_finite (ModelStats.avg_generation_time_ms s) /\
  (is_finite (ModelStats.avg_code_size_bytes s) <->
   Spec.successful (Spec.attempts_for model (attempts_of w)) <> []).
Proof.
  intro Hsome.
  pose proof (getModelStats_run getTime model w) as Hrun. cbv zeta in Hrun.
  rewrite Hsome in Hrun.
  destruct (Spec.attempts_for model (attempts_of w)) as [|a l] eqn:El;
    [discriminate |].
  apply Ok_Some_inj in Hrun. subst s.
  cbn [ModelStats.total_attempts ModelStats.success_rate
       ModelStats.avg_generation_time_ms ModelStats.avg_code_size_bytes].
  split; [cbn; lia |].
  split; [apply percentage_bounds; [apply filter_length_le | discriminate] |].
  split.
  - unfold Spec.mean, is_finite. rewrite length_map.
    rewrite div_by_count by discriminate. reflexivity.
  - unfold Spec.mean, is_finite. rewrite length_map.
    destruct (Spec.successful (a :: l)) as [|b rest].
    + split; [| congruence]. intro Hfin. exfalso.
      exact (div_by_zero_count _ Hfin).
    + split; [discriminate | intros _].
      rewrite div_by_count by discriminate. reflexivity.
Qed.

Lemma getModelStats_values_witness :
  exists s,
    fst (getModelStats sample_clock "ollama/llama3.2:7b" stats_world) = Ok (Some s) /\
    (1 <= ModelStats.total_attempts s)%nat /\
    (exists q, ModelStats.success_rate s = JS.Num q /\
               (0 <= q)%Qc /\ (q <= Q2Qc (inject_Z 100))%Qc) /\
    is_finite (ModelStats.avg_generation_time_ms s) /\
    (is_finite (ModelStats.avg_code_size_bytes s) <->
     Spec.successful
       (Spec.attempts_for "ollama/llama3.2:7b" (attempts_of stats_world)) <> []).
Proof.
  pose proof (getModelStats_run sample_clock "ollama/llama3.2:7b" stats_world)
    as Hrun.
  cbv zeta in Hrun.
  change (Spec.attempts_for "ollama/llama3.2:7b" (attempts_of stats_world))
    with [newAttempt (attempt 1 "ollama/llama3.2:7b" "success" "2025-01-01" 3000) 1;
          newAttempt (attempt 1 "ollama/llama3.2:7b" "success" "2025-01-03" 4000) 3;
          newAttempt (attempt 1 "ollama/llama3.2:7b" "error" "2025-01-04" 5000) 4]
    in Hrun at 1.
  cbv iota in Hrun.
  eexists. split; [exact Hrun |].
  exact (getModelStats_values sample_clock "ollama/llama3.2:7b" stats_world _ Hrun).
Defined.

(** X5: whenever [getModelStats] returns a record, its [last_used] is the
    [created_at] of a stored attempt of the model; when every [created_at]
    in the collection parses, no attempt of the model is more recent than
    that one. *)
Theorem getModelStats_last_used_is_newest
    (getTime : string -> JS.number) (model : string) (w : World)
    (s : ModelStats.t) :
  fst (getModelStats getTime model w) = Ok (Some s) ->
  exists newest,
    In newest (Spec.attempts_for model (attempts_of w)) /\
    ModelStats.last_used s = Some (CloneAttempt.created_at newest) /\
    (Forall (created_parses getTime) (attempts_of w) ->
     forall a, In a (Spec.attempts_for model (attempts_of w)) ->
               (created_time getTime a <= created_time getTime newest)%Qc).
Proof.
  intro Hsome.
  pose proof (getModelStats_run getTime model w) as Hrun. cbv zeta in Hrun.
  rewrite Hsome in Hrun.
  set (l := Spec.attempts_for model (attempts_of w)) in *.
  assert (Hperm : Permutation (JS.sort (newest_first getTime) l) l)
    by apply sort_perm.
  destruct l as [|a0 l0] eqn:El; [discriminate |].
  apply Ok_Some_inj in Hrun. subst s. cbn [ModelStats.last_used].
  destruct (JS.sort (newest_first getTime) (a0 :: l0)) as [|h t] eqn:Es.
  - apply Permutation_length in Hperm. discriminate.
  - exists h. split; [apply (Permutation_in _ Hperm); now left |].
    split; [reflexivity |].
    intros Hparse a Ha.
    assert (Hsorted : StronglySorted (key_not_below (created_time getTime)) (h :: t)).
    { rewrite <- Es. apply newest_first_sorted.
      rewrite <- El. apply Forall_filter, Hparse. }
    apply StronglySorted_inv in Hsorted. destruct Hsorted as [_ Hall].
    apply (Permutation_in _ (Permutation_sym Hperm)) in Ha.
    destruct Ha as [<- | Ha]; [apply Qcle_refl |].
    rewrite Forall_forall in Hall. exact (Hall a Ha).
Qed.

Lemma getModelStats_returns_record
    (getTime : string -> JS.number) (model : string) (w : World) :
  Spec.attempts_for model (attempts_of w) <> [] ->
  exists s, fst (getModelStats getTime model w) = Ok (Some s).
Proof.
  intro Hne.
  pose proof (getModelStats_run getTime model w) as Hrun. cbv zeta in Hrun.
  destruct (Spec.attempts_for model (attempts_of w)); [congruence |].
  eexists. exact Hrun.
Qed.

Lemma getModelStats_last_used_is_newest_witness :
  Forall (created_parses sample_clock) (attempts_of stats_world) /\
  exists s newest,
    fst (getModelStats sample_clock "ollama/llama3.2:7b" stats_world) = Ok (Some s) /\
    In newest (Spec.attempts_for "ollama/llama3.2:7b" (attempts_of stats_world)) /\
    ModelStats.last_used s = Some (CloneAttempt.created_at newest) /\
    forall a,
      In a (Spec.attempts_for "ollama/llama3.2:7b" (attempts_of stats_world)) ->
      (created_time sample_clock a <= created_time sample_clock newest)%Qc.
Proof.
  assert (Hparse : Forall (created_parses sample_clock) (attempts_of stats_world))
    by (repeat constructor).
  split; [exact Hparse |].
  destruct (getModelStats_returns_record sample_clock "ollama/llama3.2:7b"
              stats_world) as [s Hs]; [vm_compute; discriminate |].
  destruct (getModelStats_last_used_is_newest sample_clock "ollama/llama3.2:7b"
              stats_world s Hs) as [newest [Hin [Hlast Hmax]]].
  exists s, newest.
  split; [exact Hs |]. split; [exact Hin |]. split; [exact Hlast |].
  exact (Hmax Hparse).
Defined.

(** ** Provider comparison *)

Lemma Set_from_NoDup (xs : list string) : NoDup (Set_from xs).
Proof.
  unfold Set_from.
  enough (G : forall acc, NoDup acc ->
             NoDup (fold_left
                      (fun acc x => if existsb (String.eqb x) acc
                                    then acc else acc ++ [x]) xs acc)).
  { apply G. constructor. }
  induction xs as [|y ys IH]; intros acc Hacc; cbn [fold_left]; [exact Hacc |].
  apply IH.
  destruct (existsb (String.eqb y) acc) eqn:E; [exact Hacc |].
  apply NoDup_app; [exact Hacc | repeat constructor; cbn; tauto |].
  intros z Hz [<- | []].
  assert (Hex : existsb (String.eqb y) acc = true).
  { apply existsb_exists. exists y. split; [exact Hz | apply String.eqb_refl]. }
  congruence.
Qed.

Lemma indicator_sum (x : string) (ps : list string) :
  NoDup ps ->
  list_sum (map (fun p => if String.eqb x p then 1 else 0)%nat ps) =
  if existsb (String.eqb x) ps then 1%nat else 0%nat.
Proof.
  unfold list_sum.
  induction 1 as [| p ps Hnot Hnd IH]; cbn [map fold_right existsb]; [reflexivity |].
  rewrite IH.
  destruct (String.eqb_spec x p) as [-> | Hne]; cbn [orb].
  - destruct (existsb (String.eqb p) ps) eqn:E; [| reflexivity].
    apply existsb_exists in E. destruct E as [z [Hz Heq]].
    apply String.eqb_eq in Heq. subst z. contradiction.
  - reflexivity.
Qed.

Lemma list_sum_add {A} (f g : A -> nat) (l : list A) :
  list_sum (map (fun x => f x + g x)%nat l) =
  (list_sum (map f l) + list_sum (map g l))%nat.
Proof.
  unfold list_sum.
  induction l as [|x l IH]; cbn [map fold_right]; [reflexivity |].
  rewrite IH. lia.
Qed.

(** Grouping a list by a key, over distinct keys that cover the list,
    counts every element once. *)
Lemma group_sizes_sum {A} (g : A -> string) (ps : list string) (l : list A) :
  NoDup ps ->
  (forall a, In a l -> In (g a) ps) ->
  list_sum (map (fun p => List.length (filter (fun a => String.eqb (g a) p) l)) ps)
  = List.length l.
Proof.
  intros Hnd. induction l as [|a l IH]; intro Hcover.
  - cbn [filter List.length]. clear.
    induction ps as [|p ps IH]; cbn; auto.
  - transitivity
      (list_sum
         (map (fun p => (if String.eqb (g a) p then 1 else 0) +
                        List.length (filter (fun a => String.eqb (g a) p) l))%nat
              ps)).
    + f_equal. apply map_ext. intro p. cbn [filter].
      destruct (String.eqb (g a) p); reflexivity.
    + rewrite list_sum_add, indicator_sum by exact Hnd.
      rewrite IH by (intros b Hb; apply Hcover; now right).
      assert (Hex : existsb (String.eqb (g a)) ps = true).
      { apply existsb_exists. exists (g a).
        split; [apply Hcover; now left | apply String.eqb_refl]. }
      rewrite Hex. reflexivity.
Qed.

Lemma provider_rows_providers (attempts : list CloneAttempt.t) (ps : list string) :
  map ProviderRow.provider (map (provider_row attempts) ps) = ps.
Proof.
  rewrite map_map. cbn [provider_row ProviderRow.provider]. apply map_id.
Qed.

(** X6: [getProviderComparison] has exactly one row for each provider that
    occurs in the stored attempts, and none for any other; a row counts the
    attempts of its provider, at least one, and the counts of all rows add
    up to the number of stored attempts.  An empty collection gives no
    row. *)
Theorem getProviderComparison_groups_by_provider (w : World) :
  exists rows,
    fst (getProviderComparison w) = Ok rows /\
    NoDup (map ProviderRow.provider rows) /\
    (forall p, In p (map ProviderRow.provider rows) <->
               In p (map CloneAttempt.provider (attempts_of w))) /\
    (forall row, In row rows ->
       ProviderRow.total_attempts row =
         List.length (Spec.attempts_by (ProviderRow.provider row) (attempts_of w)) /\
       (1 <= ProviderRow.total_attempts row)%nat) /\
    list_sum (map ProviderRow.total_attempts rows) = List.length (attempts_of w) /\
    (attempts_of w = [] -> rows = []).
Proof.
  set (atts := attempts_of w).
  set (ps := Set_from (map CloneAttempt.provider atts)).
  set (unsorted := map (provider_row atts) ps).
  exists (JS.sort best_rate_first unsorted).
  assert (Hperm : Permutation (JS.sort best_rate_first unsorted) unsorted)
    by apply sort_perm.
  assert (Hprov : Permutation
                    (map ProviderRow.provider (JS.sort best_rate_first unsorted)) ps).
  { rewrite (Permutation_map ProviderRow.provider Hperm).
    unfold unsorted. now rewrite provider_rows_providers. }
  split; [apply getProviderComparison_run |].
  split.
  { apply (Permutation_NoDup (Permutation_sym Hprov)), Set_from_NoDup. }
  split.
  { intro p. rewrite <- (Set_from_spec (map CloneAttempt.provider atts) p).
    split; intro Hin.
    - exact (Permutation_in _ Hprov Hin).
    - exact (Permutation_in _ (Permutation_sym Hprov) Hin). }
  split.
  { intros row Hin. apply (Permutation_in _ Hperm) in Hin.
    apply in_map_iff in Hin. destruct Hin as [p [<- Hp]].
    cbn [provider_row ProviderRow.total_attempts ProviderRow.provider].
    split; [reflexivity |].
    apply Set_from_spec, in_map_iff in Hp. destruct Hp as [a [Ha Hin]].
    assert (Hmem : In a (filter
                           (fun a => String.eqb (CloneAttempt.provider a) p) atts)).
    { apply filter_In. split; [exact Hin |]. now apply String.eqb_eq. }
    destruct (filter _ atts); [destruct Hmem | cbn; lia]. }
  split.
  { rewrite (Permutation_map ProviderRow.total_attempts Hperm).
    unfold unsorted. rewrite map_map.
    cbn [provider_row ProviderRow.total_attempts].
    apply group_sizes_sum; [apply Set_from_NoDup |].
    intros a Ha. apply Set_from_spec. now apply in_map. }
  { intro Hempty. unfold unsorted, ps. fold atts in Hempty. rewrite Hempty.
    reflexivity. }
Qed.

Lemma getProviderComparison_groups_by_provider_witness :
  attempts_of empty_world = [] /\
  (exists rows, fst (getProviderComparison empty_world) = Ok rows /\ rows = []) /\
  (exists rows,
     fst (getProviderComparison stats_world) = Ok rows /\
     NoDup (map ProviderRow.provider rows) /\
     (In "vllm" (map ProviderRow.provider rows) <->
      In "vllm" (map CloneAttempt.provider (attempts_of stats_world))) /\
     list_sum (map ProviderRow.total_attempts rows) =
       List.length (attempts_of stats_world)).
Proof.
  split; [reflexivity |]. split.
  - destruct (getProviderComparison_groups_by_provider empty_world)
      as [rows [Hrun [_ [_ [_ [_ Hempty]]]]]].
    exists rows. split; [exact Hrun | exact (Hempty eq_refl)].
  - destruct (getProviderComparison_groups_by_provider stats_world)
      as [rows [Hrun [Hnd [Hmem [_ [Hsum _]]]]]].
    exists rows. split; [exact Hrun |]. split; [exact Hnd |].
    split; [exact (Hmem "vllm") | exact Hsum].
Defined.

Lemma is_finite_Num (q : Qc) : is_finite (JS.Num q).
Proof. reflexivity. Qed.

Lemma average_size_or0_finite (l : list CloneAttempt.t) :
  is_finite
    (JS.or0 (JS.div (JS.of_Z (reduce_sum CloneAttempt.code_size_bytes l))
                    (JS.of_nat (List.length l)))).
Proof.
  destruct l as [|a l].
  - reflexivity.
  - rewrite div_by_count by discriminate. reflexivity.
Qed.

Lemma provider_row_values (attempts : list CloneAttempt.t) (p : string) :
  In p (map CloneAttempt.provider attempts) ->
  (exists q, ProviderRow.success_rate (provider_row attempts p) = JS.Num q /\
             (0 <= q)%Qc /\ (q <= Q2Qc (inject_Z 100))%Qc) /\
  is_finite (ProviderRow.avg_generation_time (provider_row attempts p)) /\
  is_finite (ProviderRow.avg_code_size (provider_row attempts p)).
Proof.
  intro Hp. apply in_map_iff in Hp. destruct Hp as [a [Ha Hin]].
  assert (Hne : List.length
                  (filter (fun a => String.eqb (CloneAttempt.provider a) p)
                          attempts) <> O).
  { assert (Hmem : In a (filter
                           (fun a => String.eqb (CloneAttempt.provider a) p)
                           attempts)).
    { apply filter_In. split; [exact Hin |]. now apply String.eqb_eq. }
    destruct (filter _ attempts); [destruct Hmem | discriminate]. }
  cbn [provider_row ProviderRow.success_rate ProviderRow.avg_generation_time
       ProviderRow.avg_code_size].
  split; [| split].
  - apply (percentage_bounds _ _ (filter_length_le _ _) Hne).
  - rewrite div_by_count by exact Hne. apply is_finite_Num.
  - apply average_size_or0_finite.
Qed.

(** X7: the rows of [getProviderComparison] come best success rate first;
    in every row the success rate is a number between 0 and 100 and the two
    averages are finite numbers (the average size is never [NaN]). *)
Theorem getProviderComparison_best_rate_first (w : World) :
  exists rows,
    fst (getProviderComparison w) = Ok rows /\
    StronglySorted (key_not_below row_rate) rows /\
    Forall (fun r =>
              is_finite (ProviderRow.success_rate r) /\
              (0 <= row_rate r)%Qc /\ (row_rate r <= Q2Qc (inject_Z 100))%Qc /\
              is_finite (ProviderRow.avg_generation_time r) /\
              is_finite (ProviderRow.avg_code_size r)) rows.
Proof.
  set (atts := attempts_of w).
  set (ps := Set_from (map CloneAttempt.provider atts)).
  set (unsorted := map (provider_row atts) ps).
  assert (Hrows : Forall (fun r =>
              is_finite (ProviderRow.success_rate r) /\
              (0 <= row_rate r)%Qc /\ (row_rate r <= Q2Qc (inject_Z 100))%Qc /\
              is_finite (ProviderRow.avg_generation_time r) /\
              is_finite (ProviderRow.avg_code_size r)) unsorted).
  { apply Forall_forall. intros r Hr.
    apply in_map_iff in Hr. destruct Hr as [p [<- Hp]].
    apply (proj1 (Set_from_spec _ p)) in Hp.
    destruct (provider_row_values atts p Hp) as [[q [Hq [H0 H100]]] [Ht Hs]].
    unfold row_rate. rewrite Hq. cbn [number_value].
    repeat split; try assumption. }
  exists (JS.sort best_rate_first unsorted).
  split; [apply getProviderComparison_run |].
  split.
  - apply sort_sorted
      with (good := fun r => is_finite (ProviderRow.success_rate r)).
    + intros x y Hx Hy. unfold best_rate_first, row_rate. now apply sub_finite.
    + eapply Forall_impl; [| exact Hrows]. cbn. tauto.
  - apply (Permutation_Forall
             (Permutation_sym (sort_perm best_rate_first unsorted))).
    exact Hrows.
Qed.

(** ** Model performance summary *)

Lemma getModelPerformanceSummary_run (getTime : string -> JS.number) (w : World) :
  fst (getModelPerformanceSummary getTime w) =
  Ok (JS.sort fastest_first
        (map (model_row getTime (attempts_of w))
             (Set_from (map CloneAttempt.model_used (attempts_of w))))).
Proof. world w; reflexivity. Qed.

Lemma StronglySorted_weaken {A} (R R' : A -> A -> Prop) (l : list A) :
  (forall x y, R x y -> R' x y) ->
  StronglySorted R l -> StronglySorted R' l.
Proof.
  intros Himp. induction 1 as [| x l Hs IH Hall]; constructor; auto.
  eapply Forall_impl; [| exact Hall]. auto.
Qed.

Lemma model_of_row_has_attempts (attempts : list CloneAttempt.t) (m : string) :
  In m (map CloneAttempt.model_used attempts) ->
  Spec.attempts_for m attempts <> [].
Proof.
  intros Hm Hnone. apply in_map_iff in Hm. destruct Hm as [a [Ha Hin]].
  assert (Hmem : In a (Spec.attempts_for m attempts)).
  { apply filter_In. split; [exact Hin |]. now apply String.eqb_eq. }
  rewrite Hnone in Hmem. destruct Hmem.
Qed.

(** X8: every row of [getModelPerformanceSummary] agrees with what
    [getModelStats] returns for the model of the row: the same number of
    attempts, success rate, average time and last use; the average size of
    the row is that of [getModelStats] with [NaN] replaced by 0. *)
Theorem summary_row_agrees_with_getModelStats
    (getTime : string -> JS.number) (w : World)
    (rows : list ModelRow.t) (row : ModelRow.t) :
  fst (getModelPerformanceSummary getTime w) = Ok rows ->
  In row rows ->
  exists s,
    fst (getModelStats getTime (ModelRow.model_name row) w) = Ok (Some s) /\
    ModelRow.total_attempts row = ModelStats.total_attempts s /\
    ModelRow.success_rate row = ModelStats.success_rate s /\
    ModelRow.avg_generation_time row = ModelStats.avg_generation_time_ms s /\
    ModelRow.avg_code_size row = JS.or0 (ModelStats.avg_code_size_bytes s) /\
    ModelRow.last_used row = ModelStats.last_used s.
Proof.
  intros Hrows Hin.
  rewrite getModelPerformanceSummary_run in Hrows.
  injection Hrows as <-.
  apply (Permutation_in _ (sort_perm fastest_first _)) in Hin.
  apply in_map_iff in Hin. destruct Hin as [m [<- Hm]].
  apply (proj1 (Set_from_spec _ m)) in Hm.
  pose proof (model_of_row_has_attempts _ m Hm) as Hne.
  pose proof (getModelStats_run getTime m w) as Hrun. cbv zeta in Hrun.
  cbn [model_row ModelRow.model_name ModelRow.total_attempts
       ModelRow.success_rate ModelRow.avg_generation_time
       ModelRow.avg_code_size ModelRow.last_used].
  destruct (Spec.attempts_for m (attempts_of w)) as [|a l] eqn:El;
    [congruence |].
  eexists. split; [exact Hrun |].
  cbn [ModelStats.total_attempts ModelStats.success_rate
       ModelStats.avg_generation_time_ms ModelStats.avg_code_size_bytes
       ModelStats.last_used].
  change (filter (fun a => String.eqb (CloneAttempt.model_used a) m) (attempts_of w))
    with (Spec.attempts_for m (attempts_of w)).
  rewrite El.
  unfold Spec.mean. rewrite !reduce_sum_total, !length_map.
  repeat split; reflexivity.
Qed.

Lemma summary_row_agrees_with_getModelStats_witness :
  exists rows row s,
    fst (getModelPerformanceSummary sample_clock stats_world) = Ok rows /\
    In row rows /\
    ModelRow.model_name row = "vllm/CodeLlama" /\
    fst (getModelStats sample_clock (ModelRow.model_name row) stats_world)
      = Ok (Some s) /\
    ModelRow.total_attempts row = ModelStats.total_attempts s /\
    ModelRow.success_rate row = ModelStats.success_rate s /\
    ModelRow.avg_generation_time row = ModelStats.avg_generation_time_ms s /\
    ModelRow.avg_code_size row = JS.or0 (ModelStats.avg_code_size_bytes s) /\
    ModelRow.last_used row = ModelStats.last_used s.
Proof.
  pose proof (getModelPerformanceSummary_run sample_clock stats_world) as Hrows.
  set (rows := JS.sort fastest_first
                 (map (model_row sample_clock (attempts_of stats_world))
                      (Set_from (map CloneAttempt.model_used
                                     (attempts_of stats_world))))) in *.
  set (row := model_row sample_clock (attempts_of stats_world) "vllm/CodeLlama").
  assert (Hin : In row rows).
  { apply (Permutation_in _ (Permutation_sym (sort_perm fastest_first _))).
    apply in_map. apply Set_from_spec. cbn. auto. }
  destruct (summary_row_agrees_with_getModelStats sample_clock stats_world
              rows row Hrows Hin) as [s Hs].
  exists rows, row, s.
  split; [exact Hrows |]. split; [exact Hin |]. split; [reflexivity | exact Hs].
Defined.

Lemma model_rows_names (getTime : string -> JS.number)
    (attempts : list CloneAttempt.t) (ms : list string) :
  map ModelRow.model_name (map (model_row getTime attempts) ms) = ms.
Proof.
  rewrite map_map. cbn [model_row ModelRow.model_name]. apply map_id.
Qed.

(** X9: [getModelPerformanceSummary] has exactly one row for each model
    that occurs in the stored attempts; the rows come smallest average time
    first, every average time being a finite number; and the provider of a
    row is the provider stored on the first attempt of its model in the
    collection, or ["unknown"] when that provider is the empty string. *)
Theorem getModelPerformanceSummary_fastest_first
    (getTime : string -> JS.number) (w : World) :
  exists rows,
    fst (getModelPerformanceSummary getTime w) = Ok rows /\
    NoDup (map ModelRow.model_name rows) /\
    (forall m, In m (map ModelRow.model_name rows) <->
               In m (map CloneAttempt.model_used (attempts_of w))) /\
    Forall (fun r => is_finite (ModelRow.avg_generation_time r)) rows /\
    StronglySorted (key_not_above row_time) rows /\
    (forall row, In row rows ->
       exists first rest,
         Spec.attempts_for (ModelRow.model_name row) (attempts_of w)
           = first :: rest /\
         ModelRow.provider row =
           if String.eqb (CloneAttempt.provider first) ""
           then "unknown" else CloneAttempt.provider first).
Proof.
  set (atts := attempts_of w).
  set (ms := Set_from (map CloneAttempt.model_used atts)).
  set (unsorted := map (model_row getTime atts) ms).
  exists (JS.sort fastest_first unsorted).
  assert (Hperm : Permutation (JS.sort fastest_first unsorted) unsorted)
    by apply sort_perm.
  assert (Hnames : Permutation
                     (map ModelRow.model_name (JS.sort fastest_first unsorted)) ms).
  { rewrite (Permutation_map ModelRow.model_name Hperm).
    unfold unsorted. now rewrite model_rows_names. }
  assert (Hfinite : Forall (fun r => is_finite (ModelRow.avg_generation_time r))
                           unsorted).
  { apply Forall_forall. intros r Hr.
    apply in_map_iff in Hr. destruct Hr as [m [<- Hm]].
    apply (proj1 (Set_from_spec _ m)) in Hm.
    pose proof (model_of_row_has_attempts atts m Hm) as Hne.
    cbn [model_row ModelRow.avg_generation_time].
    rewrite div_by_count; [apply is_finite_Num |].
    unfold Spec.attempts_for in Hne.
    destruct (filter _ atts); [congruence | discriminate]. }
  split; [apply getModelPerformanceSummary_run |].
  split.
  { apply (Permutation_NoDup (Permutation_sym Hnames)), Set_from_NoDup. }
  split.
  { intro m. rewrite <- (Set_from_spec (map CloneAttempt.model_used atts) m).
    split; intro Hin.
    - exact (Permutation_in _ Hnames Hin).
    - exact (Permutation_in _ (Permutation_sym Hnames) Hin). }
  split.
  { apply (Permutation_Forall (Permutation_sym Hperm)), Hfinite. }
  split.
  { apply StronglySorted_weaken
      with (R := key_not_below (fun r => (- row_time r)%Qc)).
    - unfold key_not_below, key_not_above. intros x y Hxy.
      apply Qcopp_le_compat in Hxy.
      now rewrite !Qcopp_involutive in Hxy.
    - apply sort_sorted
        with (good := fun r => is_finite (ModelRow.avg_generation_time r)).
      + intros x y Hx Hy. unfold fastest_first, row_time.
        rewrite (sub_finite _ _ Hy Hx). f_equal. ring.
      + exact Hfinite. }
  { intros row Hin. apply (Permutation_in _ Hperm) in Hin.
    apply in_map_iff in Hin. destruct Hin as [m [<- Hm]].
    apply (proj1 (Set_from_spec _ m)) in Hm.
    pose proof (model_of_row_has_attempts atts m Hm) as Hne.
    cbn [model_row ModelRow.model_name ModelRow.provider].
    change (filter (fun a => String.eqb (CloneAttempt.model_used a) m) atts)
      with (Spec.attempts_for m atts).
    destruct (Spec.attempts_for m atts) as [|first rest]; [congruence |].
    exists first, rest. split; [reflexivity |].
    cbn [hd_error option_map str_or].
    destruct (CloneAttempt.provider first); reflexivity. }
Qed.

Lemma getModelPerformanceSummary_fastest_first_witness :
  exists rows row first rest,
    fst (getModelPerformanceSummary sample_clock stats_world) = Ok rows /\
    NoDup (map ModelRow.model_name rows) /\
    StronglySorted (key_not_above row_time) rows /\
    In row rows /\
    Spec.attempts_for (ModelRow.model_name row) (attempts_of stats_world)
      = first :: rest /\
    ModelRow.provider row =
      if String.eqb (CloneAttempt.provider first) ""
      then "unknown" else CloneAttempt.provider first.
Proof.
  destruct (getModelPerformanceSummary_fastest_first sample_clock stats_world)
    as [rows [Hrun [Hnd [_ [_ [Hsorted Hprov]]]]]].
  set (row := model_row sample_clock (attempts_of stats_world) "vllm/CodeLlama").
  assert (Hin : In row rows).
  { rewrite getModelPerformanceSummary_run in Hrun.
    apply Ok_inj in Hrun. subst rows.
    apply (Permutation_in _ (Permutation_sym (sort_perm fastest_first _))).
    apply in_map. apply Set_from_spec. cbn. auto. }
  destruct (Hprov row Hin) as [first [rest [Hfirst Hp]]].
  exists rows, row, first, rest.
  split; [exact Hrun |]. split; [exact Hnd |]. split; [exact Hsorted |].
  split; [exact Hin |]. split; [exact Hfirst | exact Hp].
Defined.

(** ** Sample data *)

(** X10: on files that accept writes, [importSampleData] replaces whatever
    the two collections held by the two sample websites and the two sample
    attempts, stamped with the clock readings of the run, so that the next
    identifiers are 3.  Running it again, at whatever later clock readings,
    appends nothing: the collections are replaced by the same two and two
    records with the same identifiers, stamped anew, and the files are the
    same as after the first run exactly when the samples of the two runs
    carry the same readings.  The sample attempts are stored with a size
    and a component count of 0, although their code is not empty and holds
    one component. *)
Theorem importSampleData_replaces_collections
    (now1 now2 now3 now4 later1 later2 later3 later4 : string) (w : World) :
  both_writable w ->
  let w' := snd (importSampleData now1 now2 now3 now4 w) in
  let w'' := snd (importSampleData later1 later2 later3 later4 w') in
  fst (importSampleData now1 now2 now3 now4 w) = Ok tt /\
  websites_of w' = sampleWebsites now1 now2 /\
  attempts_of w' = sampleAttempts now3 now4 /\
  getNextId (websites_of w') = 3 /\
  getNextId (attempts_of w') = 3 /\
  Forall stores_zero_for_derived_fields (attempts_of w') /\
  fst (importSampleData later1 later2 later3 later4 w') = Ok tt /\
  websites_of w'' = sampleWebsites later1 later2 /\
  attempts_of w'' = sampleAttempts later3 later4 /\
  ids (websites_of w'') = [1; 2] /\
  ids (attempts_of w'') = [1; 2] /\
  map Website.scraped_at (websites_of w'') = [later1; later2] /\
  map CloneAttempt.created_at (attempts_of w'') = [later3; later4] /\
  (websitesFile w'' = websitesFile w' <-> later1 = now1 /\ later2 = now2) /\
  (attemptsFile w'' = attemptsFile w' <-> later3 = now3 /\ later4 = now4).
Proof.
  intros [Hw Ha].
  destruct w as [[wc wb] [ac ab] con]. cbn in Hw, Ha. subst wb ab.
  cbv zeta.
  do 13 (split; [first [reflexivity | repeat constructor] |]).
  split; split.
  - intro E. cbn in E. injection E as E1 E2. auto.
  - intros [-> ->]. reflexivity.
  - intro E. cbn in E. injection E as E1 E2. auto.
  - intros [-> ->]. reflexivity.
Qed.

Lemma importSampleData_replaces_collections_witness :
  let w' := snd (importSampleData "t1" "t2" "t3" "t4" stats_world) in
  let w'' := snd (importSampleData "t5" "t6" "t7" "t8" w') in
  both_writable stats_world /\
  websites_of w' = sampleWebsites "t1" "t2" /\
  attempts_of w' = sampleAttempts "t3" "t4" /\
  getNextId (attempts_of w') = 3 /\
  websites_of w'' = sampleWebsites "t5" "t6" /\
  attempts_of w'' = sampleAttempts "t7" "t8" /\
  websitesFile w'' <> websitesFile w'.
Proof.
  cbv zeta.
  assert (Hw : both_writable stats_world) by (split; reflexivity).
  destruct (importSampleData_replaces_collections
              "t1" "t2" "t3" "t4" "t5" "t6" "t7" "t8" stats_world Hw)
    as [_ [Hwebs [Hatts [_ [Hnext [_ [_ [Hwebs' [Hatts' [_ [_ [_ [_ [Hsame _]]]]]]]]]]]]]].
  split; [exact Hw |]. split; [exact Hwebs |]. split; [exact Hatts |].
  split; [exact Hnext |]. split; [exact Hwebs' |]. split; [exact Hatts' |].
  intro E. apply Hsame in E. destruct E as [E _]. discriminate E.
Defined.

(** X11: [importSampleData] never fails and always ends by logging
    ["Sample data imported successfully"], also when a write was refused:
    each collection is replaced by the samples if its file accepts the
    write and is left as it was otherwise. *)
Theorem importSampleData_reports_success_regardless
    (now1 now2 now3 now4 : string) (w : World) :
  let w' := snd (importSampleData now1 now2 now3 now4 w) in
  fst (importSampleData now1 now2 now3 now4 w) = Ok tt /\
  (exists earlier,
     console w' = console w ++ earlier ++ ["Sample data imported successfully"]) /\
  websites_of w' =
    (if writable (websitesFile w) then sampleWebsites now1 now2
     else websites_of w) /\
  attempts_of w' =
    (if writable (attemptsFile w) then sampleAttempts now3 now4
     else attempts_of w) /\
  (writable (websitesFile w) = false ->
   websitesFile w' = websitesFile w /\
   In "Error writing websites file:" (console w')) /\
  (writable (attemptsFile w) = false ->
   attemptsFile w' = attemptsFile w /\
   In "Error writing attempts file:" (console w')).
Proof.
  cbv zeta.
  split; [world w; reflexivity |].
  split.
  { destruct w as [[wc [|]] [ac [|]] con]; cbn.
    - exists []. reflexivity.
    - exists ["Error writing attempts file:"]. now rewrite <- app_assoc.
    - exists ["Error writing websites file:"]. now rewrite <- app_assoc.
    - exists ["Error writing websites file:"; "Error writing attempts file:"].
      now rewrite <- !app_assoc. }
  split; [world w; reflexivity |].
  split; [world w; reflexivity |].
  split.
  - intro H. world w; cbn in H; try discriminate;
      (split; [reflexivity |]); cbn; rewrite !in_app_iff; cbn; auto.
  - intro H. world w; cbn in H; try discriminate;
      (split; [reflexivity |]); cbn; rewrite !in_app_iff; cbn; auto.
Qed.

Lemma importSampleData_reports_success_regardless_witness :
  let w' := snd (importSampleData "t1" "t2" "t3" "t4" read_only_world) in
  writable (websitesFile read_only_world) = false /\
  writable (attemptsFile read_only_world) = false /\
  fst (importSampleData "t1" "t2" "t3" "t4" read_only_world) = Ok tt /\
  websitesFile w' = websitesFile read_only_world /\
  attemptsFile w' = attemptsFile read_only_world /\
  In "Error writing websites file:" (console w') /\
  exists earlier,
    console w' = console read_only_world ++ earlier ++
                 ["Sample data imported successfully"].
Proof.
  cbv zeta.
  destruct (importSampleData_reports_success_regardless "t1" "t2" "t3" "t4"
              read_only_world) as [Hok [Hlog [_ [_ [Hwebs Hatts]]]]].
  split; [reflexivity |]. split; [reflexivity |]. split; [exact Hok |].
  split; [exact (proj1 (Hwebs eq_refl)) |].
  split; [exact (proj1 (Hatts eq_refl)) |].
  split; [exact (proj2 (Hwebs eq_refl)) | exact Hlog].
Defined.

(** ** trackWebsiteClone and the references it stores *)

Lemma find_app_none {A} (p : A -> bool) (l l' : list A) :
  find p l = None -> find p (l ++ l') = find p l'.
Proof.
  induction l as [|x l IH]; cbn; [reflexivity |].
  destruct (p x); [discriminate | exact IH].
Qed.


Section TrackReferences.
Variables (scraped_now created_now url modelUsed generatedCode : string).
Variables (generationTimeMs : Z) (status : track_status).
Variable errorMessage : option string.

Let track : M Z :=
  trackWebsiteClone scraped_now created_now url modelUsed generatedCode
    generationTimeMs status errorMessage.

Lemma trackWebsiteClone_writable (w : World) :
  writable (websitesFile (snd (track w))) = writable (websitesFile w) /\
  writable (attemptsFile (snd (track w))) = writable (attemptsFile w).
Proof.
  unfold track, trackWebsiteClone.
  world w; cbn -[getNextId String.eqb extract_provider newAttempt];
    try match goal with
        | |- context [find ?p ?l] => destruct (find p l)
        end; split; reflexivity.
Qed.

(** The Website that the attempt of a call refers to, when the websites
    file accepts writes. *)
Lemma tracked_site (w : World) :
  writable (websitesFile w) = true ->
  exists site,
    In site (websites_of (snd (track w))) /\
    Website.url site = url /\
    tracked_website_id url w = Website.id site /\
    lookup_url url (websites_of (snd (track w))) = Some site.
Proof.
  intro Hw. unfold track. rewrite trackWebsiteClone_websites, Hw.
  unfold tracked_website_id.
  destruct (lookup_url url (websites_of w)) as [site|] eqn:E.
  - exists site. unfold lookup_url in E.
    destruct (find_some _ _ E) as [Hin Heq].
    apply String.eqb_eq in Heq. auto.
  - exists (Website.with_id (placeholder_website scraped_now url)
              (getNextId (websites_of w))).
    split; [apply in_or_app; right; now left |].
    split; [reflexivity |]. split; [reflexivity |].
    unfold lookup_url in *. rewrite (find_app_none _ _ _ E).
    cbn. now rewrite String.eqb_refl.
Qed.

Lemma tracked_websites_grow (w : World) :
  incl (websites_of w) (websites_of (snd (track w))).
Proof.
  unfold track. rewrite trackWebsiteClone_websites.
  destruct (lookup_url url (websites_of w)); [apply incl_refl |].
  destruct (writable (websitesFile w)); [| apply incl_refl].
  apply incl_appl, incl_refl.
Qed.

End TrackReferences.

(** X12: on files that accept writes, [trackWebsiteClone] appends one
    attempt and returns its identifier; the attempt refers to a stored
    Website that has the url of the call, the very record that
    [getWebsiteByUrl] finds for this url afterwards; and it carries the
    length of the generated code as size, the number of components found in
    it, the duration and the status that were passed. *)
Theorem trackWebsiteClone_stores_valid_reference
    (scraped_now created_now url modelUsed generatedCode : string)
    (generationTimeMs : Z) (status : track_status)
    (errorMessage : option string) (w : World) :
  both_writable w ->
  let r := trackWebsiteClone scraped_now created_now url modelUsed
             generatedCode generationTimeMs status errorMessage w in
  exists a site,
    attempts_of (snd r) = attempts_of w ++ [a] /\
    fst r = Ok (CloneAttempt.id a) /\
    In site (websites_of (snd r)) /\
    Website.url site = url /\
    CloneAttempt.website_id a = Website.id site /\
    fst (getWebsiteByUrl url (snd r)) = Ok (Some site) /\
    CloneAttempt.code_size_bytes a = Some (Z.of_nat (String.length generatedCode)) /\
    CloneAttempt.component_count a =
      Some (Z.of_nat (JS.count_matches marker generatedCode)) /\
    CloneAttempt.generation_time_ms a = Some generationTimeMs /\
    CloneAttempt.status a = status_string status /\
    CloneAttempt.error_message a = errorMessage.
Proof.
  intros [Hw Ha]. cbv zeta.
  destruct (tracked_site scraped_now created_now url modelUsed generatedCode
              generationTimeMs status errorMessage w Hw)
    as [site [Hin [Hurl [Hid Hlook]]]].
  exists (tracked_attempt created_now url modelUsed generatedCode
            generationTimeMs status errorMessage w), site.
  rewrite trackWebsiteClone_attempts, trackWebsiteClone_returns, Ha.
  split; [reflexivity |]. split; [reflexivity |].
  split; [exact Hin |]. split; [exact Hurl |]. split; [exact Hid |].
  split.
  { rewrite <- Hlook.
    generalize (snd (trackWebsiteClone scraped_now created_now url modelUsed
                       generatedCode generationTimeMs status errorMessage w)).
    intro w'. world w'; reflexivity. }
  repeat split.
Qed.

Lemma trackWebsiteClone_stores_valid_reference_witness :
  let r := trackWebsiteClone "2025-01-01T00:00:00.000Z" "2025-01-01T00:00:01.000Z"
             "https://stripe.com" "ollama/llama3.2:7b"
             "export default function App() {}" 3000 StatusSuccess None
             empty_world in
  both_writable empty_world /\
  exists a site,
    attempts_of (snd r) = attempts_of empty_world ++ [a] /\
    fst r = Ok (CloneAttempt.id a) /\
    In site (websites_of (snd r)) /\
    Website.url site = "https://stripe.com" /\
    CloneAttempt.website_id a = Website.id site /\
    fst (getWebsiteByUrl "https://stripe.com" (snd r)) = Ok (Some site) /\
    CloneAttempt.code_size_bytes a = Some 32 /\
    CloneAttempt.component_count a = Some 1.
Proof.
  cbv zeta.
  assert (Hw : both_writable empty_world) by (split; reflexivity).
  split; [exact Hw |].
  destruct (trackWebsiteClone_stores_valid_reference
              "2025-01-01T00:00:00.000Z" "2025-01-01T00:00:01.000Z"
              "https://stripe.com" "ollama/llama3.2:7b"
              "export default function App() {}" 3000 StatusSuccess None
              empty_world Hw)
    as [a [site [H1 [H2 [H3 [H4 [H5 [H6 [H7 [H8 _]]]]]]]]]].
  exists a, site.
  repeat (split; [assumption |]). exact H8.
Defined.



Lemma run_track_writable (c : track_call) (w : World) :
  both_writable w -> both_writable (run_track c w).
Proof.
  intros [Hw Ha]. unfold both_writable, run_track.
  destruct (trackWebsiteClone_writable (tc_scraped_now c) (tc_created_now c)
              (tc_url c) (tc_modelUsed c) (tc_generatedCode c)
              (tc_generationTimeMs c) (tc_status c) (tc_errorMessage c) w)
    as [-> ->].
  auto.
Qed.

Lemma run_track_keeps_references (c : track_call) (w : World) :
  both_writable w -> references_valid w -> references_valid (run_track c w).
Proof.
  intros [Hw Ha] Hvalid. unfold references_valid, run_track in *.
  rewrite trackWebsiteClone_attempts, Ha.
  apply Forall_app. split.
  - eapply Forall_impl; [| exact Hvalid].
    intros a Hin. cbn in Hin. unfold ids in *.
    apply in_map_iff in Hin. destruct Hin as [site [Hid Hsite]].
    apply in_map_iff. exists site. split; [exact Hid |].
    now apply tracked_websites_grow.
  - constructor; [| constructor].
    destruct (tracked_site (tc_scraped_now c) (tc_created_now c) (tc_url c)
                (tc_modelUsed c) (tc_generatedCode c) (tc_generationTimeMs c)
                (tc_status c) (tc_errorMessage c) w Hw)
      as [site [Hin [_ [Hid _]]]].
    cbn [tracked_attempt newAttempt CloneAttempt.website_id
         CloneAttempt.f_website_id].
    rewrite Hid. unfold ids. now apply in_map.
Qed.

(** X14: on files that accept writes, [trackWebsiteClone] calls made one
    after the other keep every stored attempt referring to a stored
    Website: if all references are valid before the calls, all are valid
    after them; in particular they are after any such run on an empty
    store. *)
Theorem trackWebsiteClone_keeps_references_valid
    (calls : list track_call) (w : World) :
  both_writable w ->
  references_valid w ->
  references_valid (run_tracks calls w) /\
  List.length (attempts_of (run_tracks calls w)) =
    (List.length (attempts_of w) + List.length calls)%nat.
Proof.
  revert w. induction calls as [|c calls IH]; intros w Hw Hvalid.
  - cbn. split; [exact Hvalid | lia].
  - change (run_tracks (c :: calls) w) with (run_tracks calls (run_track c w)).
    destruct (IH (run_track c w) (run_track_writable c w Hw)
                 (run_track_keeps_references c w Hw Hvalid)) as [Hv Hlen].
    split; [exact Hv |].
    rewrite Hlen. unfold run_track.
    rewrite trackWebsiteClone_attempts, (proj2 Hw), length_app. cbn. lia.
Qed.

Lemma trackWebsiteClone_keeps_references_valid_witness :
  let calls :=
    [mk_track_call "2025-01-01T00:00:00.000Z" "2025-01-01T00:00:01.000Z"
       "https://stripe.com" "ollama/llama3.2:7b" "code" 3000 StatusSuccess None;
     mk_track_call "2025-01-02T00:00:00.000Z" "2025-01-02T00:00:01.000Z"
       "https://vercel.com" "customModel" "code" 4000 StatusError (Some "timeout");
     mk_track_call "2025-01-03T00:00:00.000Z" "2025-01-03T00:00:01.000Z"
       "https://stripe.com" "vllm/CodeLlama" "code" 5000 StatusSuccess None] in
  both_writable empty_world /\
  references_valid empty_world /\
  references_valid (run_tracks calls empty_world) /\
  List.length (attempts_of (run_tracks calls empty_world)) = 3%nat.
Proof.
  cbv zeta.
  assert (Hw : both_writable empty_world) by (split; reflexivity).
  assert (Hv : references_valid empty_world) by constructor.
  split; [exact Hw |]. split; [exact Hv |].
  exact (trackWebsiteClone_keeps_references_valid _ empty_world Hw Hv).
Defined.

(** ** Lookup, reads and derived fields *)

Lemma getWebsiteByUrl_run (url : string) (w : World) :
  fst (getWebsiteByUrl url w) = Ok (lookup_url url (websites_of w)).
Proof. world w; reflexivity. Qed.

(** X15: [getWebsiteByUrl] returns [null] exactly when no stored Website
    has the url; otherwise it returns the first stored Website with that
    url, every record stored before it having another url. *)
Theorem getWebsiteByUrl_finds_first (url : string) (w : World) :
  (fst (getWebsiteByUrl url w) = Ok None <-> ~ In url (urls (websites_of w))) /\
  (forall site,
     fst (getWebsiteByUrl url w) = Ok (Some site) ->
     exists before after,
       websites_of w = before ++ site :: after /\
       Website.url site = url /\
       ~ In url (urls before)).
Proof.
  rewrite getWebsiteByUrl_run. split.
  - rewrite <- lookup_url_None. split; [intro H; now apply Ok_inj in H | congruence].
  - intros site Hfound. apply Ok_inj in Hfound.
    unfold lookup_url in Hfound.
    induction (websites_of w) as [|x l IH]; cbn in Hfound; [discriminate |].
    destruct (String.eqb_spec (Website.url x) url) as [Heq | Hne].
    + injection Hfound as <-. exists [], l. cbn. auto.
    + destruct (IH Hfound) as [before [after [-> [Hurl Hnot]]]].
      exists (x :: before), after. split; [reflexivity |].
      split; [exact Hurl |]. cbn. intros [E | H]; [contradiction | exact (Hnot H)].
Qed.

Lemma getWebsiteByUrl_finds_first_witness :
  let w := run_sequence [CallSaveWebsite (site "https://stripe.com");
                         CallSaveWebsite (site "https://vercel.com");
                         CallSaveWebsite (site "https://vercel.com")]
             empty_world in
  fst (getWebsiteByUrl "https://vercel.com" w)
    = Ok (Some (Website.with_id (site "https://vercel.com") 2)) /\
  exists before after,
    websites_of w = before ++ Website.with_id (site "https://vercel.com") 2 :: after /\
    ~ In "https://vercel.com" (urls before).
Proof.
  cbv zeta.
  assert (Hfound : fst (getWebsiteByUrl "https://vercel.com"
                          (run_sequence
                             [CallSaveWebsite (site "https://stripe.com");
                              CallSaveWebsite (site "https://vercel.com");
                              CallSaveWebsite (site "https://vercel.com")]
                             empty_world))
                   = Ok (Some (Website.with_id (site "https://vercel.com") 2)))
    by reflexivity.
  split; [exact Hfound |].
  destruct (proj2 (getWebsiteByUrl_finds_first "https://vercel.com" _) _ Hfound)
    as [before [after [Hsplit [_ Hnot]]]].
  exists before, after. split; [exact Hsplit | exact Hnot].
Defined.



Lemma reads_only_ret {A} (a : A) : reads_only (ret a).
Proof. intro w. cbn. eauto. Qed.

Lemma reads_only_bind {A B} (m : M A) (k : A -> M B) :
  reads_only m -> (forall a, reads_only (k a)) -> reads_only (bind m k).
Proof.
  intros Hm Hk w. unfold bind.
  destruct (Hm w) as [[v Hv] [Hw Ha]].
  destruct (m w) as [r w1]. cbn in Hv, Hw, Ha. subst r.
  destruct (Hk v w1) as [Hres [Hw' Ha']].
  rewrite Hw', Ha'. auto.
Qed.

Lemma reads_only_readWebsites : reads_only readWebsites.
Proof. intro w. world w; cbn; eauto. Qed.

Lemma reads_only_readAttempts : reads_only readAttempts.
Proof. intro w. world w; cbn; eauto. Qed.

Create HintDb reads.

#[local] Hint Resolve reads_only_ret reads_only_readWebsites
  reads_only_readAttempts : reads.

Ltac reads_only_steps :=
  repeat first
    [ apply reads_only_bind; [| intro]
    | solve [auto with reads]
    | match goal with
      | |- reads_only (if ?b then _ else _) => destruct b
      end ].

Lemma reads_only_getCloneAttemptsByModel getTime model :
  reads_only (getCloneAttemptsByModel getTime model).
Proof. unfold getCloneAttemptsByModel. reads_only_steps. Qed.

Lemma reads_only_getModelStats getTime model :
  reads_only (getModelStats getTime model).
Proof.
  unfold getModelStats.
  apply reads_only_bind; [apply reads_only_getCloneAttemptsByModel |].
  intro attempts. reads_only_steps.
Qed.

Lemma reads_only_getProviderComparison : reads_only getProviderComparison.
Proof. unfold getProviderComparison. reads_only_steps. Qed.

Lemma reads_only_getModelPerformanceSummary getTime :
  reads_only (getModelPerformanceSummary getTime).
Proof. unfold getModelPerformanceSummary. reads_only_steps. Qed.

Lemma reads_only_getAllWebsites getTime : reads_only (getAllWebsites getTime).
Proof. unfold getAllWebsites. reads_only_steps. Qed.

Lemma reads_only_exportData : reads_only exportData.
Proof. unfold exportData. reads_only_steps. Qed.

(** X17: on data files that hold an array of records, or that cannot be
    read or parsed at all, the queries of the store ([getWebsiteByUrl],
    [getAllWebsites], [getCloneAttemptsByWebsite], [getCloneAttemptsByModel],
    [getModelStats], [getProviderComparison], [getModelPerformanceSummary],
    [exportData]) never fail and never change a data file.  (A file that
    parses to something other than an array of records is not among the
    files of this model, and nothing is said about it.) *)
Theorem queries_only_read
    (getTime : string -> JS.number) (url model : string) (websiteId : Z) :
  reads_only (getWebsiteByUrl url) /\
  reads_only (getAllWebsites getTime) /\
  reads_only (getCloneAttemptsByWebsite getTime websiteId) /\
  reads_only (getCloneAttemptsByModel getTime model) /\
  reads_only (getModelStats getTime model) /\
  reads_only getProviderComparison /\
  reads_only (getModelPerformanceSummary getTime) /\
  reads_only exportData.
Proof.
  split; [unfold getWebsiteByUrl; reads_only_steps |].
  split; [apply reads_only_getAllWebsites |].
  split; [unfold getCloneAttemptsByWebsite; reads_only_steps |].
  split; [apply reads_only_getCloneAttemptsByModel |].
  split; [apply reads_only_getModelStats |].
  split; [apply reads_only_getProviderComparison |].
  split; [apply reads_only_getModelPerformanceSummary |].
  apply reads_only_exportData.
Qed.

(** X18: a data file that cannot be read or does not hold JSON reads as the
    empty collection, with an error logged; the next save on it, the file
    accepting the write, replaces it by a collection of one record,
    numbered 1. *)
Theorem unreadable_file_is_replaced_on_save
    (f : Website.fields) (a : CloneAttempt.fields) (w1 w2 : World) :
  content (websitesFile w1) = None ->
  content (attemptsFile w2) = None ->
  (websites_of w1 = [] /\
   In "Error reading websites file:" (console (snd (readWebsites w1))) /\
   fst (saveWebsite f w1) = Ok 1 /\
   (writable (websitesFile w1) = true ->
    content (websitesFile (snd (saveWebsite f w1)))
      = Some [Website.with_id f 1])) /\
  (attempts_of w2 = [] /\
   In "Error reading attempts file:" (console (snd (readAttempts w2))) /\
   fst (saveCloneAttempt a w2) = Ok 1 /\
   (writable (attemptsFile w2) = true ->
    content (attemptsFile (snd (saveCloneAttempt a w2)))
      = Some [newAttempt a 1])).
Proof.
  intros H1 H2. split.
  - world w1; cbn in H1; try discriminate;
      (split; [reflexivity |]);
      (split; [cbn; rewrite in_app_iff; cbn; auto |]);
      (split; [reflexivity |]); cbn; intro; (reflexivity || discriminate).
  - world w2; cbn in H2; try discriminate;
      (split; [reflexivity |]);
      (split; [cbn; rewrite in_app_iff; cbn; auto |]);
      (split; [reflexivity |]); cbn; intro; (reflexivity || discriminate).
Qed.

Lemma unreadable_file_is_replaced_on_save_witness :
  let w := mk_world (mk_file None true) (mk_file None true) [] in
  let a := attempt 1 "ollama/llama3.2:7b" "success" "2025-01-01T00:00:00.000Z" 3500 in
  content (websitesFile w) = None /\
  writable (websitesFile w) = true /\
  fst (saveWebsite (site "https://stripe.com") w) = Ok 1 /\
  content (websitesFile (snd (saveWebsite (site "https://stripe.com") w)))
    = Some [Website.with_id (site "https://stripe.com") 1] /\
  content (attemptsFile (snd (saveCloneAttempt a w))) = Some [newAttempt a 1].
Proof.
  cbv zeta.
  destruct (unreadable_file_is_replaced_on_save
              (site "https://stripe.com")
              (attempt 1 "ollama/llama3.2:7b" "success" "2025-01-01T00:00:00.000Z" 3500)
              (mk_world (mk_file None true) (mk_file None true) [])
              (mk_world (mk_file None true) (mk_file None true) [])
              eq_refl eq_refl) as [[_ [_ [Hret Hweb]]] [_ [_ [_ Hatt]]]].
  split; [reflexivity |]. split; [reflexivity |]. split; [exact Hret |].
  split; [exact (Hweb eq_refl) | exact (Hatt eq_refl)].
Defined.

(** ** Derived fields of an attempt *)

(** X19: [saveCloneAttempt] does not use the size and the component count
    that its caller supplies: whatever they are, the result and the store
    afterwards are the same.  The record stored carries the length of the
    generated code and the number of components counted in it (0 and 0
    without code), and, unlike these two, the provider exactly as the
    caller gave it. *)
Theorem saveCloneAttempt_recomputes_size_and_count
    (a : CloneAttempt.fields) (size count : option Z) (w : World) :
  saveCloneAttempt (with_supplied a size count) w = saveCloneAttempt a w /\
  (writable (attemptsFile w) = true ->
   exists r,
     attempts_of (snd (saveCloneAttempt a w)) = attempts_of w ++ [r] /\
     CloneAttempt.code_size_bytes r =
       Some (code_size (CloneAttempt.f_generated_code a)) /\
     CloneAttempt.component_count r =
       Some (count_components (CloneAttempt.f_generated_code a)) /\
     (CloneAttempt.f_generated_code a = None ->
      CloneAttempt.code_size_bytes r = Some 0 /\
      CloneAttempt.component_count r = Some 0) /\
     CloneAttempt.provider r = CloneAttempt.f_provider a /\
     CloneAttempt.generated_code r = CloneAttempt.f_generated_code a).
Proof.
  split; [reflexivity |].
  intro Hw. eexists. rewrite saveCloneAttempt_attempts, Hw.
  split; [reflexivity |].
  cbn [newAttempt CloneAttempt.code_size_bytes CloneAttempt.component_count
       CloneAttempt.provider CloneAttempt.generated_code].
  split; [reflexivity |]. split; [reflexivity |].
  split; [intro E; rewrite E; split; reflexivity |].
  split; reflexivity.
Qed.

Lemma saveCloneAttempt_recomputes_size_and_count_witness :
  let a := attempt 1 "ollama/llama3.2:7b" "success" "2025-01-01T00:00:00.000Z" 3500 in
  saveCloneAttempt (with_supplied a (Some 999) (Some 7)) empty_world
    = saveCloneAttempt a empty_world /\
  exists r,
    attempts_of (snd (saveCloneAttempt a empty_world)) = [r] /\
    CloneAttempt.code_size_bytes r = Some 32 /\
    CloneAttempt.component_count r = Some 1.
Proof.
  cbv zeta.
  destruct (saveCloneAttempt_recomputes_size_and_count
              (attempt 1 "ollama/llama3.2:7b" "success" "2025-01-01T00:00:00.000Z" 3500)
              (Some 999) (Some 7) empty_world) as [Hsame Hstored].
  split; [exact Hsame |].
  destruct (Hstored eq_refl) as [r [Hr [Hsize [Hcount _]]]].
  exists r. split; [exact Hr |]. split; [exact Hsize | exact Hcount].
Defined.

Lemma prefix_length (m s : string) :
  String.prefix m s = true -> (String.length m <= String.length s)%nat.
Proof.
  revert s. induction m as [|c m IH]; intros s H; [cbn; lia |].
  destruct s as [|d s]; cbn in H; [discriminate |].
  destruct (ascii_dec c d); [| discriminate].
  cbn. apply IH in H. lia.
Qed.

Lemma prefix_append (m s : string) :
  String.prefix m s = true <-> exists after, s = (m ++ after)%string.
Proof.
  revert s. induction m as [|c m IH]; intro s.
  - split; [intros _; now exists s | intros _; destruct s; reflexivity].
  - destruct s as [|d s]; cbn [String.prefix append].
    + split; [discriminate | intros [after E]; discriminate].
    + destruct (ascii_dec c d) as [-> | Hne].
      * rewrite IH. split; intros [after E]; exists after; congruence.
      * split; [discriminate | intros [after E]; congruence].
Qed.

Lemma count_matches_room (m : string) (s : string) : forall skip,
  (String.length m * JS.count_matches_from m skip s
   <= String.length s - skip)%nat.
Proof.
  induction s as [|c s IH]; intro skip; cbn [JS.count_matches_from String.length].
  - lia.
  - destruct skip as [|k].
    + destruct (String.prefix m (String c s)) eqn:E.
      * apply prefix_length in E. cbn [String.length] in E.
        specialize (IH (Nat.pred (String.length m))).
        rewrite Nat.mul_succ_r. lia.
      * specialize (IH O). lia.
    + specialize (IH k). lia.
Qed.

(** X20: in every attempt that [saveCloneAttempt] stores, the components
    counted fit in the code without overlapping: 23 (the length of the
    marker ["export default function"]) times the component count is at
    most the size. *)
Theorem component_count_fits_in_size (a : CloneAttempt.fields) (w : World) :
  writable (attemptsFile w) = true ->
  exists r size count,
    attempts_of (snd (saveCloneAttempt a w)) = attempts_of w ++ [r] /\
    CloneAttempt.code_size_bytes r = Some size /\
    CloneAttempt.component_count r = Some count /\
    0 <= count /\
    23 * count <= size.
Proof.
  intro Hw. rewrite saveCloneAttempt_attempts, Hw.
  do 3 eexists. split; [reflexivity |].
  cbn [newAttempt CloneAttempt.code_size_bytes CloneAttempt.component_count].
  split; [reflexivity |]. split; [reflexivity |].
  destruct (CloneAttempt.f_generated_code a) as [code|];
    cbn [code_size count_components]; [| lia].
  pose proof (count_matches_room marker code O) as Hroom.
  change (String.length marker) with 23%nat in Hroom.
  unfold JS.count_matches. lia.
Qed.

Lemma component_count_fits_in_size_witness :
  exists r size count,
    attempts_of
      (snd (saveCloneAttempt
              (attempt 1 "ollama/llama3.2:7b" "success" "2025-01-01T00:00:00.000Z" 3500)
              empty_world)) = attempts_of empty_world ++ [r] /\
    CloneAttempt.code_size_bytes r = Some size /\
    CloneAttempt.component_count r = Some count /\
    0 <= count /\
    23 * count <= size.
Proof.
  exact (component_count_fits_in_size
           (attempt 1 "ollama/llama3.2:7b" "success" "2025-01-01T00:00:00.000Z" 3500)
           empty_world eq_refl).
Defined.

Lemma count_matches_zero (m : string) (s : string) :
  m <> EmptyString ->
  (JS.count_matches_from m O s = O <-> ~ occurs_in m s).
Proof.
  intro Hm. induction s as [|c s IH]; cbn [JS.count_matches_from].
  - split; [| reflexivity]. intros _ [before [after E]].
    destruct before; [| discriminate].
    destruct m; [congruence | discriminate].
  - destruct (String.prefix m (String c s)) eqn:E.
    + split; [discriminate |]. intro Hnot. exfalso. apply Hnot.
      apply prefix_append in E. destruct E as [after E].
      exists EmptyString, after. exact E.
    + rewrite IH. split.
      * intros Hnot [before [after Hocc]].
        destruct before as [|d before].
        -- assert (Hp : String.prefix m (String c s) = true)
             by (apply prefix_append; exists after; exact Hocc).
           congruence.
        -- injection Hocc as _ Hocc. apply Hnot. now exists before, after.
      * intros Hnot [before [after Hocc]]. apply Hnot.
        exists (String c before), after. cbn. now rewrite Hocc.
Qed.

(** X21: the component count that [saveCloneAttempt] stores is 0 exactly
    when ["export default function"] does not occur in the generated
    code. *)
Theorem component_count_zero_iff_no_marker (code : string) :
  count_components (Some code) = 0 <-> ~ occurs_in marker code.
Proof.
  unfold count_components, JS.count_matches.
  rewrite <- (count_matches_zero marker code) by discriminate.
  lia.
Qed.

Lemma component_count_zero_iff_no_marker_witness :
  count_components (Some "const answer = 42;") = 0 /\
  ~ occurs_in marker "const answer = 42;".
Proof.
  split; [reflexivity |].
  apply (proj1 (component_count_zero_iff_no_marker "const answer = 42;")).
  reflexivity.
Defined.

(** ** The analytics route *)

Lemma bind_Ok {A B} (m : M A) (k : A -> M B) (w : World) (v : A) :
  fst (m w) = Ok v -> bind m k w = k v (snd (m w)).
Proof.
  intro H. unfold bind. destruct (m w) as [r w1]. cbn in H. now subst r.
Qed.

Lemma websites_of_same_file (w w' : World) :
  websitesFile w' = websitesFile w -> websites_of w' = websites_of w.
Proof.
  destruct w as [wf af con], w' as [wf' af' con']. cbn. intros ->.
  destruct wf as [[l|] b]; reflexivity.
Qed.

Lemma attempts_of_same_file (w w' : World) :
  attemptsFile w' = attemptsFile w -> attempts_of w' = attempts_of w.
Proof.
  destruct w as [wf af con], w' as [wf' af' con']. cbn. intros ->.
  destruct af as [[l|] b]; reflexivity.
Qed.

Lemma action_is_other (action : option string) (name : string) :
  action <> Some name -> Route.action_is action name = false.
Proof.
  intro Hne. destruct action as [a|]; [| reflexivity]. cbn.
  destruct (String.eqb_spec a name); [congruence | reflexivity].
Qed.

Section RouteFacts.
Variable getTime : string -> JS.number.
Variable message_of : exn -> string.
Variables now1 now2 now3 now4 : string.

Let GET := Route.GET getTime message_of now1 now2 now3 now4.
Let POST := Route.POST getTime message_of.

Lemma GET_stats_run (w : World) :
  exists w',
    GET (Some "stats") w =
      (Ok (Route.json
             (Route.Stats
                (JS.sort fastest_first
                   (map (model_row getTime (attempts_of w))
                        (Set_from (map CloneAttempt.model_used (attempts_of w)))))
                (JS.sort best_rate_first
                   (map (provider_row (attempts_of w))
                        (Set_from (map CloneAttempt.provider (attempts_of w)))))
                (firstn 10 (JS.sort (newest_scraped_first getTime) (websites_of w)))
                (List.length
                   (JS.sort (newest_scraped_first getTime) (websites_of w))))),
       w') /\
    websitesFile w' = websitesFile w /\
    attemptsFile w' = attemptsFile w.
Proof.
  unfold GET, Route.GET, try_catch. cbn [Route.action_is String.eqb Ascii.eqb Bool.eqb].
  destruct (reads_only_getModelPerformanceSummary getTime w) as [_ [Hw1 Ha1]].
  rewrite (bind_Ok _ _ w _ (getModelPerformanceSummary_run getTime w)).
  set (w1 := snd (getModelPerformanceSummary getTime w)) in *.
  destruct (reads_only_getProviderComparison w1) as [_ [Hw2 Ha2]].
  rewrite (bind_Ok _ _ w1 _ (getProviderComparison_run w1)).
  set (w2 := snd (getProviderComparison w1)) in *.
  destruct (reads_only_getAllWebsites getTime w2) as [_ [Hw3 Ha3]].
  rewrite (bind_Ok _ _ w2 _ (getAllWebsites_run getTime w2)).
  set (w3 := snd (getAllWebsites getTime w2)) in *.
  rewrite (attempts_of_same_file w w1 Ha1).
  rewrite (websites_of_same_file w w2) by congruence.
  exists w3. cbn [ret]. split; [reflexivity |]. split; congruence.
Qed.

Lemma GET_unknown_run (action : option string) (w : World) :
  ~ known_action action ->
  GET action w =
    (Ok (Route.mk_response (Route.Failure Route.invalid_action) 400), w).
Proof.
  intro Hunknown. unfold known_action in Hunknown.
  unfold GET, Route.GET, try_catch.
  rewrite !action_is_other by tauto.
  reflexivity.
Qed.

Lemma GET_init_run (w : World) :
  GET (Some "init") w =
    (Ok (Route.json (Route.Message "Sample data initialized")),
     snd (importSampleData now1 now2 now3 now4 w)).
Proof.
  unfold GET, Route.GET, try_catch.
  cbn [Route.action_is String.eqb Ascii.eqb Bool.eqb].
  assert (Hok : fst (importSampleData now1 now2 now3 now4 w) = Ok tt)
    by (world w; reflexivity).
  rewrite (bind_Ok _ _ w tt Hok). reflexivity.
Qed.

Lemma GET_export_run (w : World) :
  fst (GET (Some "export") w) =
    Ok (Route.json (Route.Export (websites_of w) (attempts_of w))) /\
  websitesFile (snd (GET (Some "export") w)) = websitesFile w /\
  attemptsFile (snd (GET (Some "export") w)) = attemptsFile w.
Proof.
  unfold GET, Route.GET, try_catch.
  cbn [Route.action_is String.eqb Ascii.eqb Bool.eqb].
  rewrite (bind_Ok _ _ w _ (exportData_run w)). cbn [ret fst snd].
  destruct (reads_only_exportData w) as [_ [Hw Ha]]. auto.
Qed.

Lemma known_action_dec (action : option string) :
  known_action action \/ ~ known_action action.
Proof.
  unfold known_action.
  destruct action as [a|]; [| right; intuition discriminate].
  destruct (string_dec a "init") as [-> | H1]; [auto |].
  destruct (string_dec a "stats") as [-> | H2]; [auto |].
  destruct (string_dec a "export") as [-> | H3]; [auto |].
  right. intros [E | [E | E]]; congruence.
Qed.

End RouteFacts.

Section RouteProperties.
Variable getTime : string -> JS.number.
Variable message_of : exn -> string.
Variables now1 now2 now3 now4 : string.

Let GET := Route.GET getTime message_of now1 now2 now3 now4.
Let POST := Route.POST getTime message_of.

(** X22: [GET] with [action=stats] answers 200 with the model summary and
    the provider comparison as [getModelPerformanceSummary] and
    [getProviderComparison] return them, with the first ten websites of
    [getAllWebsites], never more than ten, and with the number of all
    stored websites; it changes no data file. *)
Theorem GET_stats_lists_ten_websites (w : World) :
  exists models providers websites shown w',
    GET (Some "stats") w =
      (Ok (Route.json (Route.Stats models providers shown
                         (List.length (websites_of w)))), w') /\
    fst (getModelPerformanceSummary getTime w) = Ok models /\
    fst (getProviderComparison w) = Ok providers /\
    fst (getAllWebsites getTime w) = Ok websites /\
    shown = firstn 10 websites /\
    List.length shown = Nat.min 10 (List.length (websites_of w)) /\
    websitesFile w' = websitesFile w /\
    attemptsFile w' = attemptsFile w.
Proof.
  destruct (GET_stats_run getTime message_of now1 now2 now3 now4 w)
    as [w' [Hrun [Hw Ha]]].
  assert (Hlen : List.length (JS.sort (newest_scraped_first getTime) (websites_of w))
                 = List.length (websites_of w))
    by apply Permutation_length, sort_perm.
  do 4 eexists. exists w'.
  split; [unfold GET; rewrite Hrun, Hlen; reflexivity |].
  split; [apply getModelPerformanceSummary_run |].
  split; [apply getProviderComparison_run |].
  split; [apply getAllWebsites_run |].
  split; [reflexivity |].
  split; [rewrite length_firstn, Hlen; reflexivity |].
  split; assumption.
Qed.

(** X23: [GET] with [action=init] runs [importSampleData] and answers 200
    with ["Sample data initialized"] in every case, also when the files
    refused the writes and the store is unchanged. *)
Theorem GET_init_always_reports_success (w : World) :
  GET (Some "init") w =
    (Ok (Route.json (Route.Message "Sample data initialized")),
     snd (importSampleData now1 now2 now3 now4 w)) /\
  (writable (websitesFile w) = false ->
   writable (attemptsFile w) = false ->
   websitesFile (snd (GET (Some "init") w)) = websitesFile w /\
   attemptsFile (snd (GET (Some "init") w)) = attemptsFile w).
Proof.
  pose proof (GET_init_run getTime message_of now1 now2 now3 now4 w) as Hrun.
  fold GET in Hrun.
  split; [exact Hrun |].
  intros Hw Ha. rewrite Hrun. cbn [snd].
  world w; cbn in Hw, Ha; try discriminate; split; reflexivity.
Qed.

(** X24: on data files that hold an array of records, or that cannot be
    read or parsed at all, [GET] never answers 500, whatever the action and
    whether or not the files accept writes: it answers 200 with
    [success: true] for [init], [stats] and [export]; for any other action,
    or without action, it answers 400 with the message that lists the three
    actions and touches neither the store nor the console.  With
    [action=export] the body holds the two collections as [exportData]
    returns them, and no data file changes.  (A file that parses to
    something other than an array of records is not among the files of this
    model, and nothing is said about it.) *)
Theorem GET_never_answers_500 (action : option string) (w : World) :
  (exists r,
     fst (GET action w) = Ok r /\
     (known_action action ->
      Route.status r = 200 /\ Route.success (Route.body r) = true) /\
     (~ known_action action ->
      Route.status r = 400 /\ Route.success (Route.body r) = false)) /\
  (~ known_action action ->
   GET action w =
     (Ok (Route.mk_response (Route.Failure Route.invalid_action) 400), w)) /\
  (action = Some "export" ->
   fst (GET action w) =
     Ok (Route.json (Route.Export (websites_of w) (attempts_of w))) /\
   websitesFile (snd (GET action w)) = websitesFile w /\
   attemptsFile (snd (GET action w)) = attemptsFile w).
Proof.
  pose proof (GET_export_run getTime message_of now1 now2 now3 now4 w) as Hexport.
  fold GET in Hexport.
  split; [| split; [| intros ->; exact Hexport]].
  2: { apply (GET_unknown_run getTime message_of now1 now2 now3 now4). }
  destruct (known_action_dec action) as [[-> | [-> | ->]] | Hunknown].
  - eexists. unfold GET.
    rewrite (GET_init_run getTime message_of now1 now2 now3 now4 w).
    split; [reflexivity |]. split; [intros _; split; reflexivity |].
    intro Hno. exfalso. apply Hno. left. reflexivity.
  - destruct (GET_stats_run getTime message_of now1 now2 now3 now4 w)
      as [w' [Hrun _]].
    eexists. unfold GET. rewrite Hrun.
    split; [reflexivity |]. split; [intros _; split; reflexivity |].
    intro Hno. exfalso. apply Hno. right. left. reflexivity.
  - eexists. rewrite (proj1 Hexport).
    split; [reflexivity |]. split; [intros _; split; reflexivity |].
    intro Hno. exfalso. apply Hno. right. right. reflexivity.
  - eexists. unfold GET.
    rewrite (GET_unknown_run getTime message_of now1 now2 now3 now4 action w
               Hunknown).
    split; [reflexivity |]. split; [intro; contradiction |].
    intros _. split; reflexivity.
Qed.

(** X25: [POST] without [model_name], or with the empty string as
    [model_name], answers 400 with ["model_name is required"] and touches
    neither the store nor the console.  With a non-empty [model_name] it
    answers 200 with [success: true] and, as data, what [getModelStats]
    returns for that name: [null] when the model has no stored attempt
    (there is no not-found answer); no data file changes.  A body that is
    not JSON is answered 500 with the message of the error, which is
    logged, and the store is not touched. *)
Theorem POST_answers_with_getModelStats
    (model_name : option string) (name : string) (e : exn) (w : World) :
  (model_name = None \/ model_name = Some "" ->
   POST (Ok model_name) w =
     (Ok (Route.mk_response (Route.Failure "model_name is required") 400), w)) /\
  (name <> "" ->
   exists stats,
     fst (getModelStats getTime name w) = Ok stats /\
     fst (POST (Ok (Some name)) w) = Ok (Route.json (Route.Data stats)) /\
     (Spec.attempts_for name (attempts_of w) = [] -> stats = None) /\
     websitesFile (snd (POST (Ok (Some name)) w)) = websitesFile w /\
     attemptsFile (snd (POST (Ok (Some name)) w)) = attemptsFile w) /\
  fst (POST (Throw e) w) =
    Ok (Route.mk_response (Route.Failure (message_of e)) 500) /\
  websitesFile (snd (POST (Throw e) w)) = websitesFile w /\
  attemptsFile (snd (POST (Throw e) w)) = attemptsFile w /\
  In "[local-models-analytics] Error:" (console (snd (POST (Throw e) w))).
Proof.
  split; [intros [-> | ->]; reflexivity |].
  split.
  - intro Hname.
    destruct (reads_only_getModelStats getTime name w) as [[stats Hstats] [Hw Ha]].
    exists stats. split; [exact Hstats |].
    assert (Hrun : POST (Ok (Some name)) w =
              (Ok (Route.json (Route.Data stats)),
               snd (getModelStats getTime name w))).
    { unfold POST, Route.POST, try_catch, bind at 1. cbn [fst snd].
      destruct name as [|c rest]; [congruence |].
      rewrite (bind_Ok _ _ w stats Hstats). reflexivity. }
    rewrite Hrun. cbn [fst snd].
    split; [reflexivity |]. split; [| split; assumption].
    intro Hnone.
    pose proof (getModelStats_run getTime name w) as Hspec. cbv zeta in Hspec.
    rewrite Hnone, Hstats in Hspec. now apply Ok_inj in Hspec.
  - unfold POST, Route.POST, try_catch, bind at 1. cbn.
    repeat split. rewrite in_app_iff. cbn. auto.
Qed.

End RouteProperties.

Lemma GET_init_always_reports_success_witness :
  writable (websitesFile read_only_world) = false /\
  writable (attemptsFile read_only_world) = false /\
  fst (Route.GET sample_clock (fun _ => "error") "t1" "t2" "t3" "t4"
         (Some "init") read_only_world)
    = Ok (Route.json (Route.Message "Sample data initialized")) /\
  websitesFile (snd (Route.GET sample_clock (fun _ => "error")
                       "t1" "t2" "t3" "t4" (Some "init") read_only_world))
    = websitesFile read_only_world.
Proof.
  destruct (GET_init_always_reports_success sample_clock (fun _ => "error")
              "t1" "t2" "t3" "t4" read_only_world) as [Hrun Hsame].
  split; [reflexivity |]. split; [reflexivity |].
  split; [rewrite Hrun; reflexivity |].
  exact (proj1 (Hsame eq_refl eq_refl)).
Defined.

Lemma GET_never_answers_500_witness :
  let unreadable := mk_world (mk_file None false) (mk_file None false) [] in
  known_action (Some "export") /\
  ~ known_action (Some "reset") /\
  (exists r,
     fst (Route.GET sample_clock (fun _ => "error") "t1" "t2" "t3" "t4"
            (Some "export") unreadable) = Ok r /\
     Route.status r = 200 /\ Route.success (Route.body r) = true) /\
  fst (Route.GET sample_clock (fun _ => "error") "t1" "t2" "t3" "t4"
         (Some "export") unreadable)
    = Ok (Route.json (Route.Export [] [])) /\
  Route.GET sample_clock (fun _ => "error") "t1" "t2" "t3" "t4" (Some "reset")
    stats_world =
    (Ok (Route.mk_response (Route.Failure Route.invalid_action) 400), stats_world).
Proof.
  cbv zeta.
  assert (Hknown : known_action (Some "export")) by (right; right; reflexivity).
  assert (Hreset : ~ known_action (Some "reset"))
    by (intros [E | [E | E]]; discriminate).
  destruct (GET_never_answers_500 sample_clock (fun _ => "error")
              "t1" "t2" "t3" "t4" (Some "export")
              (mk_world (mk_file None false) (mk_file None false) []))
    as [[r [Hr [Hok _]]] [_ Hexport]].
  destruct (GET_never_answers_500 sample_clock (fun _ => "error")
              "t1" "t2" "t3" "t4" (Some "reset") stats_world)
    as [_ [Hunknown _]].
  split; [exact Hknown |]. split; [exact Hreset |]. split.
  - exists r. split; [exact Hr | exact (Hok Hknown)].
  - split; [exact (proj1 (Hexport eq_refl)) | exact (Hunknown Hreset)].
Defined.

Lemma POST_answers_with_getModelStats_witness :
  "gpt-unknown" <> "" /\
  Spec.attempts_for "gpt-unknown" (attempts_of stats_world) = [] /\
  Route.POST sample_clock (fun _ => "error") (Ok (Some "")) stats_world =
    (Ok (Route.mk_response (Route.Failure "model_name is required") 400),
     stats_world) /\
  fst (Route.POST sample_clock (fun _ => "error") (Ok (Some "gpt-unknown"))
         stats_world) = Ok (Route.json (Route.Data None)) /\
  fst (Route.POST sample_clock (fun _ => "error") (Throw ReadError) stats_world)
    = Ok (Route.mk_response (Route.Failure "error") 500).
Proof.
  assert (Hname : "gpt-unknown" <> "") by discriminate.
  destruct (POST_answers_with_getModelStats sample_clock (fun _ => "error")
              (Some "") "gpt-unknown" ReadError stats_world)
    as [Hmissing [Hstats [Hthrow _]]].
  destruct (Hstats Hname) as [stats [_ [Hpost [Hnone _]]]].
  split; [exact Hname |]. split; [reflexivity |].
  split; [apply Hmissing; now right |].
  split; [| exact Hthrow].
  rewrite Hpost, (Hnone eq_refl). reflexivity.
Defined.

(** ** Overlapping calls of trackWebsiteClone *)




